(** * Verification of [scripts/generate-metadata.py]

    A shallow embedding of the metadata generator: the values that
    [json.load] produces, the Python built-ins the script calls, the
    transformer [build_metadata], the serializer, the sync-writer loop, the
    reconciler and the index writer, followed by the properties of the
    specification that can be stated over them.

    Modelling conventions.
    - Text is a [string] whose characters are read as the code points
      U+0000..U+00FF; the built-ins below ([lower], [py_repr], [py_int],
      the JSON encoder) follow CPython on that range.
    - A Python [dict] is an association list in insertion order with
      pairwise distinct keys; lookups read the first binding.
    - The output directory is a finite map from entry names to the text
      that reading the entry returns; every entry is a regular text file.
      Reading and writing an entry do not fail: a text of the range above
      can always be encoded, and a text on which [f.write] raises (one
      with a lone surrogate) is outside the model.
    - An uncaught exception ends the run; the outcome records the state of
      the output directory at that point. *)

From Stdlib Require Import ZArith NArith String Ascii List Bool Lia.
From Stdlib Require Import DecimalString DecimalFacts DecimalNat.
From stdpp Require Import gmap strings list fin_maps.

#[local] Set Warnings "-register-all".

Local Open Scope string_scope.
Local Open Scope list_scope.
Local Open Scope Z_scope.

(** ** Characters *)

Definition code (c : ascii) : N := N_of_ascii c.

Definition in_range (lo hi : N) (c : ascii) : bool :=
  ((lo <=? code c) && (code c <=? hi))%N.

Definition dquote : ascii := ascii_of_N 34.
Definition backslash : ascii := ascii_of_N 92.
Definition newline : ascii := ascii_of_N 10.

Definition is_digit (c : ascii) : bool := in_range 48 57 c.

Definition digit_val (c : ascii) : Z := Z.of_N (code c) - 48.

Definition hex_digit (n : N) : ascii :=
  ascii_of_N (if (n <? 10)%N then 48 + n else 87 + n)%N.

Definition hex2 (c : ascii) : string :=
  String (hex_digit (code c / 16)) (String (hex_digit (code c mod 16)) EmptyString).

(** ** Strings *)

Fixpoint join (sep : string) (l : list string) : string :=
  match l with
  | [] => EmptyString
  | [s] => s
  | s :: l' => s +:+ sep +:+ join sep l'
  end.

Fixpoint contains_char (c : ascii) (s : string) : bool :=
  match s with
  | EmptyString => false
  | String c' s' => Ascii.eqb c c' || contains_char c s'
  end.

Fixpoint spaces (n : nat) : string :=
  match n with
  | O => EmptyString
  | S n' => String " " (spaces n')
  end.

(** [str(n)] and the [{n}] of an f-string, for a natural number and for an
    integer. *)
Definition str_nat (n : nat) : string := NilZero.string_of_uint (Nat.to_uint n).

Definition str_int (z : Z) : string := NilZero.string_of_int (Z.to_int z).

(** [str.lower] on U+0000..U+00FF: the ASCII capitals and the Latin-1
    capitals U+00C0..U+00DE (U+00D7, the multiplication sign, apart). *)
Definition lower_char (c : ascii) : ascii :=
  if in_range 65 90 c || (in_range 192 222 c && negb (code c =? 215)%N)
  then ascii_of_N (code c + 32)
  else c.

Fixpoint lower (s : string) : string :=
  match s with
  | EmptyString => EmptyString
  | String c s' => String (lower_char c) (lower s')
  end.

(** [str.endswith]. *)
Fixpoint endswith (suf s : string) : bool :=
  String.eqb suf s ||
  match s with
  | EmptyString => false
  | String _ s' => endswith suf s'
  end.

(** [s] begins with [p]. *)
Fixpoint starts_with (p s : string) : bool :=
  match p, s with
  | EmptyString, _ => true
  | String _ _, EmptyString => false
  | String a p', String b s' => Ascii.eqb a b && starts_with p' s'
  end.

(** [str.replace(old, new)] for a non-empty [old]: the occurrences are
    replaced from left to right without overlap; [skip] counts the
    characters of a matched occurrence still to be dropped. *)
Fixpoint replace_from (old new : string) (skip : nat) (s : string) : string :=
  match s with
  | EmptyString => EmptyString
  | String c s' =>
      match skip with
      | S k => replace_from old new k s'
      | O =>
          if starts_with old s
          then new +:+ replace_from old new (String.length old - 1) s'
          else String c (replace_from old new 0 s')
      end
  end.

Definition replace (old new s : string) : string := replace_from old new 0 s.

(** [str.strip(chars)] for a single character. *)
Fixpoint lstrip (c : ascii) (s : string) : string :=
  match s with
  | EmptyString => EmptyString
  | String c' s' => if Ascii.eqb c' c then lstrip c s' else s
  end.

Fixpoint rstrip (c : ascii) (s : string) : string :=
  match s with
  | EmptyString => EmptyString
  | String c' s' =>
      match rstrip c s' with
      | EmptyString => if Ascii.eqb c' c then EmptyString else String c' EmptyString
      | r => String c' r
      end
  end.

Definition strip (c : ascii) (s : string) : string := rstrip c (lstrip c s).

(** [re.sub(r"[^a-z0-9]+", "-", s)]: every maximal run of characters outside
    the class becomes one hyphen; [in_run] tells that the run the scan is in
    has already produced its hyphen. *)
Definition is_slug_char (c : ascii) : bool := in_range 97 122 c || in_range 48 57 c.

Fixpoint re_sub_from (in_run : bool) (s : string) : string :=
  match s with
  | EmptyString => EmptyString
  | String c s' =>
      if is_slug_char c then String c (re_sub_from false s')
      else if in_run then re_sub_from true s'
      else String "-" (re_sub_from true s')
  end.

Definition re_sub (s : string) : string := re_sub_from false s.

(** ** [int(s)] for a string

    Optional white space, an optional sign, decimal digits with single
    underscores between them, optional white space. On U+0000..U+00FF the
    white space [int] accepts is U+0009..U+000D, U+0020, U+0085 and U+00A0,
    and the only decimal digits are the ASCII ones. [None] is [ValueError].
    (Recent CPython versions also raise [ValueError] beyond a few thousand
    digits, more than the name of a directory entry can hold.) *)
Definition is_int_space (c : ascii) : bool :=
  in_range 9 13 c || (code c =? 32)%N || (code c =? 133)%N || (code c =? 160)%N.

Fixpoint skip_space (s : string) : string :=
  match s with
  | EmptyString => EmptyString
  | String c s' => if is_int_space c then skip_space s' else s
  end.

Fixpoint all_space (s : string) : bool :=
  match s with
  | EmptyString => true
  | String c s' => is_int_space c && all_space s'
  end.

Fixpoint int_digits (acc : Z) (s : string) : option Z :=
  match s with
  | EmptyString => Some acc
  | String c s' =>
      if is_digit c then int_digits (10 * acc + digit_val c) s'
      else if Ascii.eqb c "_" then
        match s' with
        | EmptyString => None
        | String d s'' =>
            if is_digit d then int_digits (10 * acc + digit_val d) s'' else None
        end
      else if all_space s then Some acc
      else None
  end.

Definition int_unsigned (s : string) : option Z :=
  match s with
  | EmptyString => None
  | String c s' => if is_digit c then int_digits (digit_val c) s' else None
  end.

Definition py_int (s : string) : option Z :=
  match skip_space s with
  | EmptyString => None
  | String c s' =>
      if Ascii.eqb c "+" then int_unsigned s'
      else if Ascii.eqb c "-" then Z.opp <$> int_unsigned s'
      else int_unsigned (String c s')
  end.

(** ** The values of [json.load] *)

Inductive json : Type :=
| JNull                                 (* None *)
| JBool (b : bool)
| JInt (n : Z)
| JFloat (r : string)                   (* a float, held as its [repr] *)
| JStr (s : string)
| JArr (l : list json)
| JObj (d : list (string * json)).

Abbreviation dict := (list (string * json)).

(** [d.get(k)], [d.get(k, default)], [d[k] = v] and [del d[k]]. *)
Fixpoint dict_get (k : string) (d : dict) : option json :=
  match d with
  | [] => None
  | (k', v) :: d' => if String.eqb k k' then Some v else dict_get k d'
  end.

Definition get (d : dict) (k : string) : json := default JNull (dict_get k d).

Definition get_or (d : dict) (k : string) (dflt : json) : json :=
  default dflt (dict_get k d).

Fixpoint dict_set (k : string) (v : json) (d : dict) : dict :=
  match d with
  | [] => [(k, v)]
  | (k', v') :: d' =>
      if String.eqb k k' then (k', v) :: d' else (k', v') :: dict_set k v d'
  end.

Fixpoint dict_del (k : string) (d : dict) : dict :=
  match d with
  | [] => []
  | (k', v') :: d' => if String.eqb k k' then d' else (k', v') :: dict_del k d'
  end.

(** [bool(v)]. *)
Definition truthy (v : json) : bool :=
  match v with
  | JNull => false
  | JBool b => b
  | JInt n => negb (n =? 0)
  | JFloat r => negb (String.eqb r "0.0" || String.eqb r "-0.0")
  | JStr s => negb (String.eqb s EmptyString)
  | JArr l => match l with [] => false | _ => true end
  | JObj d => match d with [] => false | _ => true end
  end.

(** [isinstance(v, dict)]. *)
Definition is_dict (v : json) : bool :=
  match v with JObj _ => true | _ => false end.

(** [repr] of a string: single quotes unless the text has a single quote
    and no double quote; the quote and the backslash are escaped, tab, line
    feed and carriage return have short escapes and every other
    non-printable character is written [\xNN]. *)
Definition printable (c : ascii) : bool :=
  in_range 32 126 c || (in_range 161 255 c && negb (code c =? 173)%N).

Definition repr_char (q c : ascii) : string :=
  if Ascii.eqb c q || Ascii.eqb c backslash then String backslash (String c EmptyString)
  else if (code c =? 9)%N then "\t"
  else if (code c =? 10)%N then "\n"
  else if (code c =? 13)%N then "\r"
  else if printable c then String c EmptyString
  else "\x" +:+ hex2 c.

Fixpoint repr_chars (q : ascii) (s : string) : string :=
  match s with
  | EmptyString => EmptyString
  | String c s' => repr_char q c +:+ repr_chars q s'
  end.

Definition repr_str (s : string) : string :=
  let q := if contains_char "'" s && negb (contains_char dquote s)
           then dquote else "'"%char in
  String q (repr_chars q s) +:+ String q EmptyString.

Fixpoint py_repr (v : json) : string :=
  match v with
  | JNull => "None"
  | JBool true => "True"
  | JBool false => "False"
  | JInt n => str_int n
  | JFloat r => r
  | JStr s => repr_str s
  | JArr l => "[" +:+ join ", " (map py_repr l) +:+ "]"
  | JObj d =>
      "{" +:+ join ", " (map (fun kv => repr_str kv.1 +:+ ": " +:+ py_repr kv.2) d) +:+ "}"
  end.

(** [str(v)]. *)
Definition py_str (v : json) : string :=
  match v with
  | JStr s => s
  | _ => py_repr v
  end.

(** ** The JSON encoder ([json.dumps] and [json.dump]) *)

Record encoder := {
  ensure_ascii : bool;
  indent : option nat;
  item_separator : string;
  key_separator : string
}.

Definition encode_char (ascii_only : bool) (c : ascii) : string :=
  if Ascii.eqb c dquote then String backslash (String dquote EmptyString)
  else if Ascii.eqb c backslash then String backslash (String backslash EmptyString)
  else if (code c =? 10)%N then "\n"
  else if (code c =? 13)%N then "\r"
  else if (code c =? 9)%N then "\t"
  else if (code c =? 8)%N then "\b"
  else if (code c =? 12)%N then "\f"
  else if (code c <? 32)%N || (ascii_only && (126 <? code c)%N) then "\u00" +:+ hex2 c
  else String c EmptyString.

Fixpoint encode_chars (ascii_only : bool) (s : string) : string :=
  match s with
  | EmptyString => EmptyString
  | String c s' => encode_char ascii_only c +:+ encode_chars ascii_only s'
  end.

Definition encode_str (e : encoder) (s : string) : string :=
  String dquote (encode_chars (ensure_ascii e) s) +:+ String dquote EmptyString.

Definition encode_float (r : string) : string :=
  if String.eqb r "nan" then "NaN"
  else if String.eqb r "inf" then "Infinity"
  else if String.eqb r "-inf" then "-Infinity"
  else r.

(** The text put after the opening bracket and between the items, and
    before the closing bracket, of a non-empty container at nesting depth
    [level]. *)
Definition newline_indent (e : encoder) (level : nat) : string :=
  match indent e with
  | None => EmptyString
  | Some n => String newline (spaces (n * level))
  end.

Fixpoint iterencode (e : encoder) (level : nat) (v : json) : string :=
  match v with
  | JNull => "null"
  | JBool true => "true"
  | JBool false => "false"
  | JInt n => str_int n
  | JFloat r => encode_float r
  | JStr s => encode_str e s
  | JArr [] => "[]"
  | JArr l =>
      "[" +:+ newline_indent e (S level)
          +:+ join (item_separator e +:+ newline_indent e (S level))
                   (map (iterencode e (S level)) l)
          +:+ newline_indent e level +:+ "]"
  | JObj [] => "{}"
  | JObj d =>
      "{" +:+ newline_indent e (S level)
          +:+ join (item_separator e +:+ newline_indent e (S level))
                   (map (fun kv => encode_str e kv.1 +:+ key_separator e
                                     +:+ iterencode e (S level) kv.2) d)
          +:+ newline_indent e level +:+ "}"
  end.

(** [json.dumps(v, separators=(",", ":"), ensure_ascii=False)]. *)
Definition compact : encoder :=
  {| ensure_ascii := false; indent := None;
     item_separator := ","; key_separator := ":" |}.

(** [json.dump(v, f, indent=2)]. *)
Definition indented : encoder :=
  {| ensure_ascii := true; indent := Some 2%nat;
     item_separator := ","; key_separator := ": " |}.

(** ** The transformer: [build_metadata] *)

Definition placeholder (idx : nat) : string := "Card_" +:+ str_nat idx.

Definition trait (trait_type : string) (value : json) : json :=
  JObj [("trait_type", JStr trait_type); ("value", value)].

Definition stat_keys : list (string * string) :=
  [("hp", "HP"); ("manaCost", "Mana Cost"); ("crit", "Crit")].

Definition section_labels : list (string * string) :=
  [("header", "Header"); ("imageArea", "Image Area");
   ("typeSection", "Type Section"); ("flavorText", "Flavor Text");
   ("bottomSection", "Bottom Section"); ("stat", "Stat");
   ("rarity", "Rarity Badge")].

(** One iteration of the loop over the numeric stats (lines 53-59). *)
Definition stat_step (card : dict) (attrs : list json) (kd : string * string)
  : list json :=
  let '(stat_key, display) := kd in
  match get card stat_key with
  | JObj stat =>
      if truthy (JObj stat) && truthy (get stat "value") then
        let attrs := attrs ++ [trait display (JStr (py_str (get stat "value")))] in
        if truthy (get stat "color")
        then attrs ++ [trait (display +:+ " Gradient") (get stat "color")]
        else attrs
      else attrs
  | _ => attrs
  end.

(** One iteration of the loop over the theme sections (lines 78-89). *)
Definition section_step (theme : dict) (attrs : list json) (kl : string * string)
  : list json :=
  let '(key, label) := kl in
  match get theme key with
  | JObj section =>
      if negb (truthy (JObj section)) then attrs
      else
        let attrs :=
          if truthy (get section "background")
          then attrs ++ [trait (label +:+ " Background") (get section "background")]
          else attrs in
        let attrs :=
          if truthy (get section "color")
          then attrs ++ [trait (label +:+ " Color") (get section "color")]
          else attrs in
        let attrs :=
          if truthy (get section "border")
          then attrs ++ [trait (label +:+ " Border") (get section "border")]
          else attrs in
        if truthy (get section "accentColor")
        then attrs ++ [trait (label +:+ " Accent") (get section "accentColor")]
        else attrs
  | _ => attrs
  end.

(** The attributes appended for the standard fields (lines 41-50). *)
Definition standard_attrs (card : dict) : list json :=
  let attrs := [] in
  let attrs :=
    if truthy (get card "type")
    then attrs ++ [trait "Type" (get card "type")] else attrs in
  let attrs :=
    if truthy (get card "rarity")
    then attrs ++ [trait "Rarity" (get card "rarity")] else attrs in
  let attrs :=
    if truthy (get card "level")
    then attrs ++ [trait "Level" (JStr (py_str (get card "level")))] else attrs in
  let attrs :=
    if truthy (get card "subtitle")
    then attrs ++ [trait "Move" (get card "subtitle")] else attrs in
  if truthy (get card "artist")
  then attrs ++ [trait "Artist" (get card "artist")] else attrs.

(** The theme block (lines 62-92): the attributes and the properties it
    leaves. *)
Definition theme_block (card : dict) (attrs : list json) (props : dict)
  : list json * dict :=
  match get card "theme" with
  | JObj theme =>
      if truthy (JObj theme) then
        let attrs :=
          if truthy (get theme "background")
          then attrs ++ [trait "Card Background" (get theme "background")]
          else attrs in
        let attrs := fold_left (section_step theme) section_labels attrs in
        (attrs, dict_set "theme" (JObj theme) props)
      else (attrs, props)
  | _ => (attrs, props)
  end.

Definition build_metadata (card : dict) (idx : nat) : dict :=
  let name := get_or card "name" (JStr (placeholder idx)) in
  let description :=
    if truthy (get card "flavorText") then get card "flavorText"
    else JStr "A Whirlpool card" in
  let image := get_or card "image" (JStr EmptyString) in
  let attrs := standard_attrs card in
  let attrs := fold_left (stat_step card) stat_keys attrs in
  let '(attrs, props) := theme_block card attrs [] in
  let meta :=
    [("name", name);
     ("description", description);
     ("image", image);
     ("external_url", JStr "https://howlonghasitben.github.io/cog-works/");
     ("attributes", JArr attrs);
     ("properties", JObj props)] in
  if negb (truthy (JObj props)) then dict_del "properties" meta else meta.

(** ** The serializer *)

Definition serialize (meta : dict) : string := iterencode compact 0 (JObj meta).

(** ** The run: sync writer, reconciler, index writer *)

Record state := {
  out_dir : gmap string string;
  index_map : dict;
  written : nat;
  skipped : nat
}.

Inductive loop_result :=
| Completed (st : state)
| Raised (st : state).

Definition out_path (i : nat) : string := str_nat i +:+ ".json".

Definition slugify (name : string) : string := strip "-" (re_sub (lower name)).

(** The body of the loop over the cards (lines 107-126); [None] is an
    uncaught [AttributeError], raised by [card.get] on a card that is not
    an object or by [name.lower()] on a name that is not a string, in both
    cases before the iteration has changed anything. *)
Definition sync_card (force : bool) (card : json) (i : nat) (st : state)
  : option state :=
  match card with
  | JObj c =>
      match get_or c "name" (JStr (placeholder i)) with
      | JStr name =>
          let slug := slugify name in
          let index_map :=
            dict_set name (JObj [("index", JInt (Z.of_nat i)); ("slug", JStr slug)])
                     (index_map st) in
          let meta := build_metadata c i in
          let new_content := serialize meta in
          let write :=
            {| out_dir := <[out_path i := new_content]> (out_dir st);
               index_map := index_map;
               written := S (written st);
               skipped := skipped st |} in
          let skip :=
            {| out_dir := out_dir st;
               index_map := index_map;
               written := written st;
               skipped := S (skipped st) |} in
          if negb force then
            match out_dir st !! out_path i with
            | Some existing =>
                if String.eqb existing new_content then Some skip else Some write
            | None => Some write
            end
          else Some write
      | _ => None
      end
  | _ => None
  end.

Fixpoint sync_writer (force : bool) (cards : list json) (i : nat) (st : state)
  : loop_result :=
  match cards with
  | [] => Completed st
  | card :: cards' =>
      match sync_card force card i st with
      | Some st' => sync_writer force cards' (S i) st'
      | None => Raised st
      end
  end.

(** The test that sends an entry to [os.remove] (lines 131-137). *)
Definition is_stale (total : nat) (fname : string) : bool :=
  if String.eqb fname "index.json" then false
  else if endswith ".json" fname then
    match py_int (replace ".json" EmptyString fname) with
    | Some idx => Z.of_nat total <=? idx
    | None => false
    end
  else false.

Definition reconcile_entry (total : nat) (acc : gmap string string * nat)
  (fname : string) : gmap string string * nat :=
  if is_stale total fname then (delete fname acc.1, S acc.2) else acc.

(** [os.listdir]: the names of the entries, in no particular order. *)
Definition listdir (d : gmap string string) : list string := (map_to_list d).*1.

Definition reconciler (total : nat) (d : gmap string string)
  : gmap string string * nat :=
  fold_left (reconcile_entry total) (listdir d) (d, 0%nat).

Record report := {
  r_total : nat;
  r_written : nat;
  r_skipped : nat;
  r_stale : nat
}.

Inductive outcome :=
| Finished (d : gmap string string) (index : dict) (r : report)
| Aborted (out : option (gmap string string)).

(** The whole script. [input] is what [json.load] returns: [None] when the
    card document is unreadable or malformed, else the sequence of cards;
    [out] is the output directory, [None] when it does not exist. *)
Definition main (force : bool) (input : option (list json))
  (out : option (gmap string string)) : outcome :=
  let d0 := default ∅ out in
  match input with
  | None => Aborted (Some d0)
  | Some cards =>
      let total := length cards in
      let st0 := {| out_dir := d0; index_map := []; written := 0; skipped := 0 |} in
      match sync_writer force cards 0 st0 with
      | Raised st => Aborted (Some (out_dir st))
      | Completed st =>
          let '(d, stale) := reconciler total (out_dir st) in
          Finished (<["index.json" := iterencode indented 0 (JObj (index_map st))]> d)
                   (index_map st)
                   {| r_total := total; r_written := written st;
                      r_skipped := skipped st; r_stale := stale |}
      end
  end.

(** * Definitions used in the statements *)

(** ** Texts *)

(** Every character is a decimal digit. *)
Fixpoint all_digits (s : string) : bool :=
  match s with
  | EmptyString => true
  | String c s' => is_digit c && all_digits s'
  end.

(** [p] occurs somewhere in [s]. *)
Fixpoint occurs (p s : string) : bool :=
  starts_with p s ||
  match s with
  | EmptyString => false
  | String _ s' => occurs p s'
  end.

(** The maximal runs of characters of the class [a-z0-9] in a string. *)
Fixpoint alnum_runs (s : string) : list string :=
  match s with
  | EmptyString => []
  | String c s' =>
      if is_slug_char c then
        match s' with
        | EmptyString => [String c EmptyString]
        | String c' _ =>
            if is_slug_char c' then
              match alnum_runs s' with
              | w :: l => String c w :: l
              | [] => [String c EmptyString]
              end
            else String c EmptyString :: alnum_runs s'
        end
      else alnum_runs s'
  end.

(** A hyphen before a text that is not empty. *)
Definition hyphen_before (s : string) : string :=
  match s with
  | EmptyString => EmptyString
  | _ => String "-" s
  end.

(** The text begins with a character outside [a-z0-9]. *)
Definition starts_outside (s : string) : bool :=
  match s with
  | EmptyString => false
  | String c _ => negb (is_slug_char c)
  end.

(** ** Documents *)

(** The condition under which the theme block runs (line 63): the theme
    is truthy and an object, that is, a non-empty object. *)
Definition theme_ok (card : dict) : bool :=
  truthy (get card "theme") && is_dict (get card "theme").


(** The attributes that the theme block appends. *)
Definition theme_attrs (card : dict) : list json := (theme_block card [] []).1.

(** The attributes of a record, block after block. *)
Definition all_attrs (card : dict) : list json :=
  standard_attrs card ++ flat_map (stat_step card []) stat_keys ++ theme_attrs card.

(** The [trait_type] of an attribute. *)
Definition trait_type_of (a : json) : string :=
  match a with
  | JObj d => match get d "trait_type" with JStr t => t | _ => EmptyString end
  | _ => EmptyString
  end.







(** ** Cards and the index map *)

(** The name under which the loop files a card (line 107); [None] when the
    iteration raises. *)
Definition card_name (card : json) (i : nat) : option string :=
  match card with
  | JObj c =>
      match get_or c "name" (JStr (placeholder i)) with
      | JStr name => Some name
      | _ => None
      end
  | _ => None
  end.

(** The text the loop computes for a card (lines 111-112). *)
Definition document (card : json) (i : nat) : string :=
  match card with
  | JObj c => serialize (build_metadata c i)
  | _ => EmptyString
  end.

(** The value bound to a name in the index map (line 109). *)
Definition index_entry (i : nat) (name : string) : json :=
  JObj [("index", JInt (Z.of_nat i)); ("slug", JStr (slugify name))].

(** The index map after the cards [cards], the first of them at position
    [i], have been entered into [ix]. *)
Fixpoint index_of (cards : list json) (i : nat) (ix : dict) : dict :=
  match cards with
  | [] => ix
  | card :: cards' =>
      match card_name card i with
      | Some name => index_of cards' (S i) (dict_set name (index_entry i name) ix)
      | None => ix
      end
  end.

(** No iteration of the loop over [cards] raises. *)
Fixpoint cards_ok (cards : list json) (i : nat) : bool :=
  match cards with
  | [] => true
  | card :: cards' =>
      match card_name card i with
      | Some _ => cards_ok cards' (S i)
      | None => false
      end
  end.

(** The position of the last card of [cards] filed under [name], the first
    card being at position [i]. *)
Fixpoint last_named (cards : list json) (i : nat) (name : string) : option nat :=
  match cards with
  | [] => None
  | card :: cards' =>
      match last_named cards' (S i) name with
      | Some j => Some j
      | None =>
          match card_name card i with
          | Some n => if String.eqb name n then Some i else None
          | None => None
          end
      end
  end.

(** ** Runs *)

(** The state in which the loop starts (lines 17-23). *)
Definition initial (out : option (gmap string string)) : state :=
  {| out_dir := default ∅ out; index_map := []; written := 0; skipped := 0 |}.

(** The text of the index file (line 144). *)
Definition index_text (ix : dict) : string := iterencode indented 0 (JObj ix).

(** The output directory as the run leaves it. *)
Definition final_out (o : outcome) : option (gmap string string) :=
  match o with
  | Finished d _ _ => Some d
  | Aborted out => out
  end.

Definition final_dir (o : outcome) : gmap string string := default ∅ (final_out o).

Definition final_index (o : outcome) : dict :=
  match o with
  | Finished _ ix _ => ix
  | Aborted _ => []
  end.

Definition final_report (o : outcome) : option report :=
  match o with
  | Finished _ _ r => Some r
  | Aborted _ => None
  end.

(** The entries of a directory are documents or the index file. *)
Definition only_documents (d : gmap string string) : Prop :=
  forall f, is_Some (d !! f) -> f = "index.json" \/ exists i, f = out_path i.

(** ** Sample inputs *)

Definition sample_card_0 : json :=
  JObj [("name", JStr "Alpha Beta"); ("type", JStr "Fire"); ("level", JInt 3);
        ("hp", JObj [("value", JInt 10)]);
        ("crit", JObj [("value", JInt 2); ("color", JStr "red")]);
        ("theme", JObj [("background", JStr "#fff");
                        ("stat", JObj [("color", JStr "blue")])])].

Definition sample_card_1 : json := JObj [("flavorText", JStr "Second")].

Definition sample_card_2 : json := JObj [("name", JStr "Gamma!!")].

Definition sample_cards : list json := [sample_card_0; sample_card_1; sample_card_2].

(** The directory a first run on the sample cards leaves. *)
Definition sample_dir : gmap string string :=
  final_dir (main false (Some sample_cards) None).

(** A directory with entries of several kinds of names. *)
Definition sample_entries : gmap string string :=
  {[ "7" := "seven"; "5.json" := "five"; "0.json" := "zero"; "x.json" := "text" ]}.


(** Three cards, two of them of the same name. *)
Definition named_cards : list json :=
  [JObj [("name", JStr "Alpha Beta")];
   JObj [("name", JStr "Gamma!!")];
   JObj [("name", JStr "Alpha Beta")]].

(** ** Tactics *)


(** * Definitions used in the further properties *)

(** ** Runs and their outcomes *)

(** A card on which an iteration of the loop does not raise: an object
    whose name is absent or a string. *)
Definition well_formed (card : json) : bool :=
  match card with
  | JObj c =>
      match dict_get "name" c with
      | None | Some (JStr _) => true
      | Some _ => false
      end
  | _ => false
  end.

Definition finished (o : outcome) : bool :=
  match o with
  | Finished _ _ _ => true
  | Aborted _ => false
  end.

(** The positions, from [i] on, of the cards whose document is not what the
    directory [d0] holds under their path. *)
Fixpoint changed_from (d0 : gmap string string) (cards : list json) (i : nat)
  : list nat :=
  match cards with
  | [] => []
  | card :: cards' =>
      (if decide (d0 !! out_path i = Some (document card i)) then [] else [i])
      ++ changed_from d0 cards' (S i)
  end.

(** The state in which a loop ended, and whether it ended normally. *)
Definition loop_state (r : loop_result) : state :=
  match r with
  | Completed st | Raised st => st
  end.

Definition completed (r : loop_result) : bool :=
  match r with
  | Completed _ => true
  | Raised _ => false
  end.

(** The names under which the loop files the cards, in the order of the
    cards; the list stops at a card on which the loop raises. *)
Fixpoint card_names (cards : list json) (i : nat) : list string :=
  match cards with
  | [] => []
  | card :: cards' =>
      match card_name card i with
      | Some n => n :: card_names cards' (S i)
      | None => []
      end
  end.

(** ** The table of traits *)











(** The keys of a record that the transformer reads. *)
Definition used_keys : list string :=
  ["name"; "flavorText"; "image"; "type"; "rarity"; "level"; "subtitle"; "artist";
   "hp"; "manaCost"; "crit"; "theme"].


(** The sample record 0 with its fields in another order and two fields
    that the transformer does not read. *)
Definition shuffled_card_0 : dict :=
  [("id", JInt 7);
   ("theme", JObj [("background", JStr "#fff");
                   ("stat", JObj [("color", JStr "blue")])]);
   ("crit", JObj [("value", JInt 2); ("color", JStr "red")]);
   ("hp", JObj [("value", JInt 10)]);
   ("level", JInt 3); ("type", JStr "Fire"); ("notes", JArr []);
   ("name", JStr "Alpha Beta")].

(** ** Slugs *)

(** Every character of the text is in [a-z0-9] or is a hyphen that is not
    followed by another hyphen. *)
Fixpoint single_hyphens (s : string) : bool :=
  match s with
  | EmptyString => true
  | String c s' =>
      (is_slug_char c || (Ascii.eqb c "-" && negb (starts_with "-" s')))
      && single_hyphens s'
  end.

(** The shape of a slug: characters of [a-z0-9] and single hyphens between
    them, none at either end. *)
Definition slug_shape (s : string) : bool :=
  single_hyphens s && negb (starts_with "-" s) && negb (endswith "-" s).

(** ** The characters of the encoder's output *)

(** Every character of the text satisfies [p]. *)
Fixpoint all_chars (p : ascii -> bool) (s : string) : bool :=
  match s with
  | EmptyString => true
  | String c s' => p c && all_chars p s'
  end.


(** The character is a printable ASCII character or a line feed. *)
Definition ascii_or_newline (c : ascii) : bool :=
  in_range 32 126 c || Ascii.eqb c newline.

(** The characters of the [repr] of a float: digits, point, exponent mark,
    signs, and the letters of [inf] and [nan]. *)
Definition float_char (c : ascii) : bool :=
  is_digit c || contains_char c ".e+-infa".

(** The floats of a value are held as texts that a [repr] can be. *)
Fixpoint floats_ok (v : json) : bool :=
  match v with
  | JFloat r => all_chars float_char r
  | JArr l => forallb floats_ok l
  | JObj d => forallb (fun kv => floats_ok kv.2) d
  | _ => true
  end.

(** Induction on a value, with the property at hand for the elements of an
    array and the values of an object. *)
Section json_induction.
Variable P : json -> Prop.
Hypothesis HNull : P JNull.
Hypothesis HBool : forall b, P (JBool b).
Hypothesis HInt : forall n, P (JInt n).
Hypothesis HFloat : forall r, P (JFloat r).
Hypothesis HStr : forall s, P (JStr s).
Hypothesis HArr : forall l, Forall P l -> P (JArr l).
Hypothesis HObj : forall d, Forall (fun kv => P kv.2) d -> P (JObj d).

Fixpoint json_induction (v : json) : P v :=
  match v with
  | JNull => HNull
  | JBool b => HBool b
  | JInt n => HInt n
  | JFloat r => HFloat r
  | JStr s => HStr s
  | JArr l =>
      HArr l ((fix elements (l : list json) : Forall P l :=
                 match l with
                 | [] => @List.Forall_nil _ P
                 | x :: l' =>
                     @List.Forall_cons _ P x l' (json_induction x) (elements l')
                 end) l)
  | JObj d =>
      HObj d ((fix values (d : list (string * json)) : Forall (fun kv => P kv.2) d :=
                 match d with
                 | [] => @List.Forall_nil _ _
                 | kv :: d' =>
                     @List.Forall_cons _ (fun kv => P kv.2) kv d'
                                       (json_induction kv.2) (values d')
                 end) d)
  end.
End json_induction.

(** ** Successive runs *)

(** The positions, from [i] on, of the cards of [cards] whose document is
    not the document that the card of [before] at the same position has;
    a position that [before] does not have counts. *)
Fixpoint changed_cards (before cards : list json) (i : nat) : list nat :=
  match cards with
  | [] => []
  | card :: cards' =>
      (if decide ((fun c => document c i) <$> before !! i = Some (document card i))
       then [] else [i])
      ++ changed_cards before cards' (S i)
  end.

(** * Properties *)

(** ** Decimal names of the documents *)

Lemma to_uint_nonnil (n : nat) : Nat.to_uint n <> Decimal.Nil.
Proof.
  rewrite <- (DecimalNat.Unsigned.of_to n) at 1.
  rewrite DecimalNat.Unsigned.to_of. apply DecimalFacts.unorm_nonnil.
Qed.

Lemma str_nat_unfold (n : nat) :
  str_nat n = NilEmpty.string_of_uint (Nat.to_uint n).
Proof.
  unfold str_nat, NilZero.string_of_uint.
  pose proof (to_uint_nonnil n). destruct (Nat.to_uint n); congruence.
Qed.

Lemma string_of_uint_digits (d : Decimal.uint) :
  all_digits (NilEmpty.string_of_uint d) = true.
Proof. induction d; simpl; auto. Qed.

Lemma int_digits_of_uint (d : Decimal.uint) (acc : nat) :
  int_digits (Z.of_nat acc) (NilEmpty.string_of_uint d)
  = Some (Z.of_nat (Nat.of_uint_acc d acc)).
Proof.
  revert acc. induction d; intros acc; simpl; [reflexivity | ..];
    (match goal with
     | |- int_digits ?z _ = Some (Z.of_nat (Nat.of_uint_acc _ ?a)) =>
         replace z with (Z.of_nat a);
         [apply IHd | rewrite Nat.tail_mul_spec; unfold digit_val; simpl; lia]
     end).
Qed.

Lemma py_int_str_nat (n : nat) : py_int (str_nat n) = Some (Z.of_nat n).
Proof.
  rewrite str_nat_unfold.
  rewrite <- (DecimalNat.Unsigned.of_to n) at 2.
  pose proof (to_uint_nonnil n) as Hnil.
  unfold Nat.of_uint.
  destruct (Nat.to_uint n) as [|d|d|d|d|d|d|d|d|d|d]; [congruence | ..];
    unfold py_int; simpl;
    (match goal with
     | |- int_digits ?z _ = Some (Z.of_nat (Nat.of_uint_acc _ ?a)) =>
         change z with (Z.of_nat a); apply int_digits_of_uint
     end).
Qed.

(** ** The suffix [".json"] *)

Lemma starts_with_app (p s t : string) :
  starts_with p s = true -> starts_with p (s +:+ t) = true.
Proof.
  revert s. induction p as [|a p IH]; intros [|b s]; simpl; try done.
  rewrite !andb_true_iff. intros [? ?]; auto.
Qed.

(** An occurrence of [".json"] at the front of [s +:+ ".json"] lies within
    [s], unless [s] is empty: it cannot straddle the two parts. *)
Lemma starts_with_json_app (s : string) :
  s <> EmptyString ->
  starts_with ".json" (s +:+ ".json") = starts_with ".json" s.
Proof.
  intros Hs.
  destruct (starts_with ".json" s) eqn:E; [by apply starts_with_app |].
  destruct s as [|c1 [|c2 [|c3 [|c4 [|c5 s]]]]]; simpl in *; try done;
    rewrite ?andb_false_r; done.
Qed.

Lemma replace_json_suffix (stem : string) :
  occurs ".json" stem = false ->
  replace ".json" EmptyString (stem +:+ ".json") = stem.
Proof.
  unfold replace. induction stem as [|c stem IH]; [done |].
  intros Hocc. cbn [occurs] in Hocc. apply orb_false_iff in Hocc as [Hhd Htl].
  change (String c stem +:+ ".json") with (String c (stem +:+ ".json")).
  cbn [replace_from].
  change (String c (stem +:+ ".json")) with (String c stem +:+ ".json").
  rewrite starts_with_json_app, Hhd by done.
  by rewrite IH.
Qed.

Lemma endswith_app (suf s : string) : endswith suf (s +:+ suf) = true.
Proof.
  induction s as [|c s IH].
  - change (EmptyString +:+ suf) with suf.
    destruct suf; cbn [endswith]; by rewrite String.eqb_refl.
  - simpl. rewrite IH. apply orb_true_r.
Qed.

Lemma endswith_inv (suf s : string) :
  endswith suf s = true -> exists stem, s = stem +:+ suf.
Proof.
  induction s as [|c s IH]; simpl.
  - rewrite orb_false_r. intros ->%String.eqb_eq. by exists EmptyString.
  - intros [->%String.eqb_eq | H]%orb_true_iff.
    + by exists EmptyString.
    + destruct (IH H) as [stem ->]. by exists (String c stem).
Qed.

Lemma digits_no_json (s : string) :
  all_digits s = true -> occurs ".json" s = false.
Proof.
  induction s as [|c s IH]; [done |].
  cbn [all_digits occurs starts_with].
  intros [Hc Hs]%andb_true_iff. rewrite IH by done.
  destruct (Ascii.eqb_spec "." c) as [<- | _]; [discriminate Hc | reflexivity].
Qed.

(** ** The documents' paths *)

Lemma str_nat_digits (n : nat) : all_digits (str_nat n) = true.
Proof. rewrite str_nat_unfold. apply string_of_uint_digits. Qed.

Lemma out_path_index (i : nat) :
  py_int (replace ".json" EmptyString (out_path i)) = Some (Z.of_nat i).
Proof.
  unfold out_path. rewrite replace_json_suffix by apply digits_no_json, str_nat_digits.
  apply py_int_str_nat.
Qed.

Lemma out_path_inj (i j : nat) : out_path i = out_path j -> i = j.
Proof.
  intros H. pose proof (out_path_index i) as Hi.
  rewrite H, out_path_index in Hi. injection Hi. lia.
Qed.

Lemma out_path_not_index (i : nat) : out_path i <> "index.json".
Proof.
  intros H. pose proof (out_path_index i) as Hi. rewrite H in Hi. discriminate Hi.
Qed.

Lemma is_stale_out_path (total i : nat) :
  is_stale total (out_path i) = (total <=? i)%nat.
Proof.
  unfold is_stale.
  destruct (String.eqb_spec (out_path i) "index.json") as [H | _];
    [by apply out_path_not_index in H |].
  unfold out_path at 1. rewrite endswith_app, out_path_index.
  destruct (Nat.leb_spec total i); lia.
Qed.

(** ** The sync writer *)

Lemma sync_card_None (force : bool) (card : json) (i : nat) (st : state) :
  sync_card force card i st = None <-> card_name card i = None.
Proof.
  unfold sync_card, card_name.
  destruct card as [| | | | |l|c]; try done.
  destruct (get_or c "name" _); try done.
  destruct force; simpl; [done |].
  destruct (out_dir st !! out_path i) as [existing|]; [| done].
  by destruct (String.eqb existing _).
Qed.

(** What one iteration does to the state. *)
Lemma sync_card_Some (force : bool) (card : json) (i : nat) (st st' : state) :
  sync_card force card i st = Some st' ->
  exists name,
    card_name card i = Some name /\
    index_map st' = dict_set name (index_entry i name) (index_map st) /\
    ((force = false /\ out_dir st !! out_path i = Some (document card i) /\
      out_dir st' = out_dir st /\
      written st' = written st /\ skipped st' = S (skipped st))
     \/
     ((force = true \/ out_dir st !! out_path i <> Some (document card i)) /\
      out_dir st' = <[out_path i := document card i]> (out_dir st) /\
      written st' = S (written st) /\ skipped st' = skipped st)).
Proof.
  unfold sync_card, card_name, document.
  destruct card as [| | | | |l|c]; try done.
  destruct (get_or c "name" _) as [| | | |name| |]; try done.
  intros H. exists name. split; [done |].
  destruct force; simpl in H.
  - injection H as <-. simpl. split; [done |]. right. auto.
  - destruct (out_dir st !! out_path i) as [existing|] eqn:E.
    + destruct (String.eqb_spec existing (serialize (build_metadata c i)))
        as [-> | Hne]; injection H as <-; simpl; (split; [done |]).
      * left. auto.
      * right. split; [right; congruence | auto].
    + injection H as <-. simpl. split; [done |]. right.
      split; [right; congruence | auto].
Qed.

Lemma sync_card_lookup (force : bool) (card : json) (i : nat) (st st' : state) (f : string) :
  sync_card force card i st = Some st' ->
  out_dir st' !! f =
    if decide (f = out_path i) then Some (document card i) else out_dir st !! f.
Proof.
  intros (name & _ & _ & [(_ & Hsame & -> & _) | (_ & -> & _)])%sync_card_Some.
  - case_decide; congruence.
  - rewrite lookup_insert. repeat case_decide; congruence.
Qed.

Lemma sync_card_counters (force : bool) (card : json) (i : nat) (st st' : state) :
  sync_card force card i st = Some st' ->
  (written st' + skipped st' = S (written st + skipped st))%nat /\
  (force = true -> written st' = S (written st) /\ skipped st' = skipped st).
Proof.
  intros (name & _ & _ & [(-> & _ & _ & -> & ->) | (_ & _ & -> & ->)])%sync_card_Some;
    (split; [lia | done]).
Qed.

Lemma sync_writer_Completed (force : bool) (cards : list json) (i : nat) (st : state) :
  cards_ok cards i = true <-> exists st', sync_writer force cards i st = Completed st'.
Proof.
  revert i st. induction cards as [|card cards IH]; intros i st; simpl.
  - split; eauto.
  - destruct (sync_card force card i st) as [st1|] eqn:E.
    + apply sync_card_Some in E as (name & -> & _). apply IH.
    + apply sync_card_None in E as ->. split; [done | by intros [? ?]].
Qed.

Lemma sync_writer_index (force : bool) (cards : list json) (i : nat) (st st' : state) :
  sync_writer force cards i st = Completed st' ->
  index_map st' = index_of cards i (index_map st).
Proof.
  revert i st. induction cards as [|card cards IH]; intros i st; simpl.
  - by intros [= <-].
  - destruct (sync_card force card i st) as [st1|] eqn:E; [| done].
    intros H%IH. apply sync_card_Some in E as (name & -> & <- & _). done.
Qed.

(** The directory after the loop: position [i + j] holds the document of the
    [j]-th card, every other entry is as before. *)
Lemma sync_writer_lookup (force : bool) (cards : list json) (i : nat) (st st' : state) :
  sync_writer force cards i st = Completed st' ->
  (forall j card, cards !! j = Some card ->
     out_dir st' !! out_path (i + j) = Some (document card (i + j)%nat)) /\
  (forall f, (forall j, (j < length cards)%nat -> f <> out_path (i + j)) ->
     out_dir st' !! f = out_dir st !! f).
Proof.
  revert i st. induction cards as [|card cards IH]; intros i st; simpl.
  - intros [= <-]. split; [by intros j card' | done].
  - destruct (sync_card force card i st) as [st1|] eqn:E; [| done].
    intros H. destruct (IH _ _ H) as [Hdoc Hframe]. split.
    + intros [|j] card' Hj; simpl in Hj.
      * injection Hj as <-. rewrite Nat.add_0_r, Hframe.
        -- rewrite (sync_card_lookup _ _ _ _ _ _ E). by rewrite decide_True.
        -- intros j _ Heq%out_path_inj. lia.
      * replace (i + S j)%nat with (S i + j)%nat by lia. by apply Hdoc.
    + intros f Hf. rewrite Hframe.
      * rewrite (sync_card_lookup _ _ _ _ _ _ E).
        rewrite decide_False; [done |].
        specialize (Hf 0%nat). rewrite Nat.add_0_r in Hf. apply Hf. lia.
      * intros j Hj. replace (S i + j)%nat with (i + S j)%nat by lia.
        apply Hf. lia.
Qed.

Lemma sync_writer_touched (force : bool) (cards : list json) (i : nat) (st st' : state) (f : string) :
  sync_writer force cards i st = Completed st' ->
  out_dir st' !! f = out_dir st !! f \/
  exists j, (j < length cards)%nat /\ f = out_path (i + j).
Proof.
  revert i st. induction cards as [|card cards IH]; intros i st; simpl.
  - intros [= <-]. by left.
  - destruct (sync_card force card i st) as [st1|] eqn:E; [| done].
    intros [Hsame | (j & Hj & ->)]%IH.
    + rewrite Hsame, (sync_card_lookup _ _ _ _ _ f E).
      case_decide as Hf; [| by left].
      right. exists 0%nat. rewrite Nat.add_0_r. split; [lia | done].
    + right. exists (S j). split; [lia | f_equal; lia].
Qed.

Lemma sync_writer_counters (force : bool) (cards : list json) (i : nat) (st st' : state) :
  sync_writer force cards i st = Completed st' ->
  (written st' + skipped st' = written st + skipped st + length cards)%nat /\
  (force = true ->
   written st' = (written st + length cards)%nat /\ skipped st' = skipped st).
Proof.
  revert i st. induction cards as [|card cards IH]; intros i st; simpl.
  - intros [= <-]. split; [lia | intros _; split; lia].
  - destruct (sync_card force card i st) as [st1|] eqn:E; [| done].
    intros [H1 H2]%IH. apply sync_card_counters in E as [E1 E2].
    split; [lia |]. intros Hf. specialize (H2 Hf). specialize (E2 Hf). lia.
Qed.

(** Without [--force], a directory that already holds every document is
    left alone and every card is counted as unchanged. *)
Lemma sync_writer_unchanged (cards : list json) (i : nat) (st : state) :
  cards_ok cards i = true ->
  (forall j card, cards !! j = Some card ->
     out_dir st !! out_path (i + j) = Some (document card (i + j)%nat)) ->
  sync_writer false cards i st =
    Completed {| out_dir := out_dir st;
                 index_map := index_of cards i (index_map st);
                 written := written st;
                 skipped := (skipped st + length cards)%nat |}.
Proof.
  revert i st. induction cards as [|card cards IH]; intros i st Hok Hdir; simpl.
  - rewrite Nat.add_0_r. by destruct st.
  - simpl in Hok. destruct (card_name card i) as [name|] eqn:Hname; [| done].
    destruct (sync_card false card i st) as [st1|] eqn:E;
      [| apply sync_card_None in E; congruence].
    apply sync_card_Some in E
      as (name' & Hname' & Hix & [(_ & _ & Hd & Hw & Hs) | ([? | Hne] & _)]);
      [| done | ].
    + rewrite IH; [| done |].
      * rewrite Hd, Hix, Hw, Hs. do 2 f_equal; [congruence | lia].
      * intros j card' Hj. rewrite Hd.
        replace (S i + j)%nat with (i + S j)%nat by lia. by apply Hdir.
    + exfalso. apply Hne. specialize (Hdir 0%nat card eq_refl).
      by rewrite Nat.add_0_r in Hdir.
Qed.

(** ** The reconciler *)

Lemma reconcile_fold (total : nat) (names : list string)
      (acc : gmap string string * nat) (f : string) :
  (fold_left (reconcile_entry total) names acc).1 !! f =
    if is_stale total f && bool_decide (f ∈ names) then None else acc.1 !! f.
Proof.
  revert acc. induction names as [|g names IH]; intros acc; simpl.
  - by rewrite andb_false_r.
  - rewrite IH. unfold reconcile_entry.
    destruct (is_stale total f) eqn:Hf; simpl.
    + destruct (decide (f = g)) as [-> | Hne].
      * rewrite Hf. simpl. rewrite lookup_delete_eq.
        rewrite (bool_decide_eq_true_2 (g ∈ g :: names)) by (apply elem_of_cons; auto).
        by destruct (bool_decide (g ∈ names)).
      * assert ((f ∈ g :: names) <-> (f ∈ names)) as Hiff
          by (rewrite elem_of_cons; tauto).
        rewrite (bool_decide_ext _ _ Hiff).
        case_bool_decide; [done |].
        destruct (is_stale total g); simpl; [by rewrite lookup_delete_ne | done].
    + destruct (is_stale total g) eqn:Hg; simpl; [| done].
      rewrite lookup_delete_ne; [done | congruence].
Qed.

Lemma reconcile_fold_count (total : nat) (names : list string)
      (acc : gmap string string * nat) :
  (fold_left (reconcile_entry total) names acc).2 =
    (acc.2 + length (filter (fun f => is_stale total f = true) names))%nat.
Proof.
  revert acc. induction names as [|g names IH]; intros acc; simpl; [lia |].
  rewrite IH. unfold reconcile_entry.
  destruct (is_stale total g) eqn:Hg.
  - rewrite filter_cons_True by done. simpl. lia.
  - rewrite filter_cons_False by congruence. done.
Qed.

Lemma elem_of_listdir (d : gmap string string) (f : string) :
  f ∈ listdir d <-> is_Some (d !! f).
Proof.
  unfold listdir. rewrite list_elem_of_fmap. split.
  - intros [[g v] [-> Hin%elem_of_map_to_list]]. eauto.
  - intros [v Hv]. exists (f, v). split; [done | by apply elem_of_map_to_list].
Qed.

(** The reconciler removes the stale entries and nothing else. *)
Lemma reconciler_lookup (total : nat) (d : gmap string string) (f : string) :
  (reconciler total d).1 !! f = if is_stale total f then None else d !! f.
Proof.
  unfold reconciler. rewrite reconcile_fold. simpl.
  destruct (is_stale total f); simpl; [| done].
  case_bool_decide as Hin; [done |].
  rewrite elem_of_listdir in Hin. symmetry. by apply eq_None_not_Some in Hin.
Qed.

Lemma reconciler_count (total : nat) (d : gmap string string) :
  (reconciler total d).2 =
    length (filter (fun f => is_stale total f = true) (listdir d)).
Proof. unfold reconciler. by rewrite reconcile_fold_count. Qed.

(** ** The whole run *)

(** A run finishes exactly when its sync-writer loop completes, and then
    the final directory is the loop's, minus the stale entries, with the
    index file rewritten. *)
Lemma main_Finished (force : bool) (cards : list json)
      (out : option (gmap string string))
      (d : gmap string string) (ix : dict) (r : report) :
  main force (Some cards) out = Finished d ix r <->
  exists st,
    sync_writer force cards 0 (initial out) = Completed st /\
    d = <["index.json" := index_text ix]> (reconciler (length cards) (out_dir st)).1 /\
    ix = index_map st /\
    r = {| r_total := length cards; r_written := written st;
           r_skipped := skipped st;
           r_stale := (reconciler (length cards) (out_dir st)).2 |}.
Proof.
  unfold main. fold (initial out).
  destruct (sync_writer force cards 0 (initial out)) as [st|st].
  - destruct (reconciler (length cards) (out_dir st)) as [d' n] eqn:E. split.
    + intros [= <- <- <-]. exists st. by rewrite E.
    + intros (st' & [= <-] & -> & -> & ->). by rewrite E.
  - split; [done | by intros (st' & ? & _)].
Qed.

Lemma final_lookup (total : nat) (d : gmap string string) (text f : string) :
  <["index.json" := text]> (reconciler total d).1 !! f =
    if String.eqb f "index.json" then Some text
    else if is_stale total f then None else d !! f.
Proof.
  destruct (String.eqb_spec f "index.json") as [-> | Hne].
  - apply lookup_insert_eq.
  - rewrite lookup_insert_ne by done. apply reconciler_lookup.
Qed.

Lemma main_Aborted_input (force : bool) (out : option (gmap string string)) :
  main force None out = Aborted (Some (default ∅ out)).
Proof. reflexivity. Qed.

(** ** Properties of a run *)

Lemma finished_lookup (force : bool) (cards : list json)
      (out : option (gmap string string))
      (d : gmap string string) (ix : dict) (r : report) (f : string) :
  main force (Some cards) out = Finished d ix r ->
  exists st,
    sync_writer force cards 0 (initial out) = Completed st /\
    d !! f = if String.eqb f "index.json" then Some (index_text ix)
             else if is_stale (length cards) f then None else out_dir st !! f.
Proof.
  intros (st & Hst & -> & -> & _)%main_Finished. exists st. split; [done |].
  apply final_lookup.
Qed.

Lemma finished_document (force : bool) (cards : list json)
      (out : option (gmap string string))
      (d : gmap string string) (ix : dict) (r : report) (i : nat) :
  main force (Some cards) out = Finished d ix r ->
  d !! out_path i = (fun card => document card i) <$> cards !! i.
Proof.
  intros H. destruct (finished_lookup _ _ _ _ _ _ (out_path i) H) as (st & Hst & ->).
  rewrite (proj2 (String.eqb_neq _ _) (out_path_not_index i)).
  rewrite is_stale_out_path.
  destruct (sync_writer_lookup _ _ _ _ _ Hst) as [Hdoc _].
  destruct (cards !! i) as [card|] eqn:Hi; simpl.
  - rewrite (proj2 (Nat.leb_gt _ _)) by (by eapply lookup_lt_Some).
    by apply (Hdoc i card).
  - by rewrite (proj2 (Nat.leb_le _ _)) by (by apply lookup_ge_None).
Qed.

Lemma finished_cards_ok (force : bool) (cards : list json)
      (out : option (gmap string string))
      (d : gmap string string) (ix : dict) (r : report) :
  main force (Some cards) out = Finished d ix r ->
  cards_ok cards 0 = true /\ ix = index_of cards 0 [].
Proof.
  intros (st & Hst & _ & -> & _)%main_Finished. split.
  - apply (sync_writer_Completed force cards 0 (initial out)). eauto.
  - by apply sync_writer_index in Hst.
Qed.

(** A finished run leaves no entry that its reconciler would remove. *)
Lemma finished_no_stale (force : bool) (cards : list json)
      (out : option (gmap string string))
      (d : gmap string string) (ix : dict) (r : report) :
  main force (Some cards) out = Finished d ix r ->
  filter (fun f => is_stale (length cards) f = true) (listdir d) = [].
Proof.
  intros H. apply elem_of_nil_inv.
  intros f [Hstale [v Hv]%elem_of_listdir]%list_elem_of_filter.
  destruct (finished_lookup _ _ _ _ _ _ f H) as (st & _ & Hf).
  rewrite Hv, Hstale in Hf.
  destruct (String.eqb_spec f "index.json") as [-> | _]; done.
Qed.

(** C9, as the code has it: when the card document cannot be loaded the
    run aborts, and every entry of the output directory is as it was before
    the run: none is created, modified or deleted. The directory itself has
    been created by then, empty, if it did not exist. *)
Theorem input_error_leaves_entries (force : bool) (out : option (gmap string string)) :
  main force None out = Aborted (Some (default ∅ out)) /\
  final_dir (main force None out) = default ∅ out.
Proof. done. Qed.

(** C9 as stated fails: with no output directory before the run and an
    unreadable card document, the output directory exists after the
    abort. *)
Lemma input_error_creates_out_dir :
  final_out (main false None None) = Some ∅ /\
  final_out (main false None None) <> None.
Proof. done. Qed.

(** The documents and the index file after a finished run. *)
Lemma finished_documents (force : bool) (cards : list json)
      (out : option (gmap string string))
      (d : gmap string string) (ix : dict) (r : report) :
  main force (Some cards) out = Finished d ix r ->
  (forall i card, cards !! i = Some card -> d !! out_path i = Some (document card i)) /\
  (forall i, (length cards <= i)%nat -> d !! out_path i = None) /\
  (forall i, is_Some (d !! out_path i) <-> (i < length cards)%nat) /\
  d !! "index.json" = Some (index_text ix).
Proof.
  intros H. repeat split.
  - intros i card Hi. by rewrite (finished_document _ _ _ _ _ _ i H), Hi.
  - intros i Hi. rewrite (finished_document _ _ _ _ _ _ i H).
    by rewrite (proj2 (lookup_ge_None cards i)).
  - rewrite (finished_document _ _ _ _ _ _ i H), fmap_is_Some.
    apply lookup_lt_is_Some.
  - rewrite (finished_document _ _ _ _ _ _ i H), fmap_is_Some.
    apply lookup_lt_is_Some.
  - by destruct (finished_lookup _ _ _ _ _ _ "index.json" H) as (st & _ & ->).
Qed.

(** A run started on documents and an index file leaves nothing else. *)
Lemma finished_only_documents (force : bool) (cards : list json)
      (out : option (gmap string string))
      (d : gmap string string) (ix : dict) (r : report) :
  main force (Some cards) out = Finished d ix r ->
  only_documents (default ∅ out) -> only_documents d.
Proof.
  intros H Hout f Hf.
  destruct (finished_lookup _ _ _ _ _ _ f H) as (st & Hst & Hlook).
  destruct (String.eqb_spec f "index.json") as [-> | Hne]; [by left |].
  destruct (is_stale (length cards) f); [by rewrite Hlook in Hf; destruct Hf |].
  destruct (sync_writer_touched _ _ _ _ _ f Hst) as [Hsame | (j & _ & ->)].
  - rewrite Hlook, Hsame in Hf. by apply Hout.
  - right. eauto.
Qed.

(** C3: after a finished run on N cards, the entry named [i.json] holds the
    document of card [i] for every [i < N], no entry [i.json] exists for
    [i >= N], and the index file is present; when the directory held
    nothing but documents and the index file before the run, these N + 1
    entries are all there is. *)
Theorem completeness (force : bool) (cards : list json)
        (out : option (gmap string string))
        (d : gmap string string) (ix : dict) (r : report) :
  main force (Some cards) out = Finished d ix r ->
  (forall i card, cards !! i = Some card -> d !! out_path i = Some (document card i)) /\
  (forall i, (length cards <= i)%nat -> d !! out_path i = None) /\
  (forall i, is_Some (d !! out_path i) <-> (i < length cards)%nat) /\
  d !! "index.json" = Some (index_text ix) /\
  (only_documents (default ∅ out) ->
   forall f, is_Some (d !! f) <->
             f = "index.json" \/ exists i, (i < length cards)%nat /\ f = out_path i).
Proof.
  intros H. destruct (finished_documents _ _ _ _ _ _ H) as (Hdocs & Hnone & Hsome & Hix).
  split; [done |]. split; [done |]. split; [done |]. split; [done |].
  intros Hout f. split.
  - intros Hf. destruct (finished_only_documents _ _ _ _ _ _ H Hout f Hf) as [-> | [i ->]];
      [by left | right]. exists i. split; [by apply Hsome | done].
  - intros [-> | (i & Hi & ->)]; [by rewrite Hix | by apply Hsome].
Qed.

Lemma completeness_witness :
  main false (Some sample_cards) None
    = Finished sample_dir (final_index (main false (Some sample_cards) None))
        {| r_total := 3; r_written := 3; r_skipped := 0; r_stale := 0 |} /\
  (forall i card, sample_cards !! i = Some card ->
     sample_dir !! out_path i = Some (document card i)) /\
  (forall i, (length sample_cards <= i)%nat -> sample_dir !! out_path i = None) /\
  (forall i, is_Some (sample_dir !! out_path i) <-> (i < length sample_cards)%nat) /\
  sample_dir !! "index.json"
    = Some (index_text (final_index (main false (Some sample_cards) None))) /\
  (only_documents (default ∅ None) ->
   forall f, is_Some (sample_dir !! f) <->
             f = "index.json" \/
             exists i, (i < length sample_cards)%nat /\ f = out_path i).
Proof.
  assert (main false (Some sample_cards) None
    = Finished sample_dir (final_index (main false (Some sample_cards) None))
        {| r_total := 3; r_written := 3; r_skipped := 0; r_stale := 0 |}) as H
    by (vm_compute; reflexivity).
  split; [exact H | exact (completeness _ _ _ _ _ _ H)].
Defined.

Lemma cards_ok_take (cards : list json) (i m : nat) :
  cards_ok cards i = true -> cards_ok (take m cards) i = true.
Proof.
  revert i m. induction cards as [|card cards IH]; intros i [|m]; simpl; try done.
  destruct (card_name card i); [apply IH | done].
Qed.

(** An incremental run on a directory that holds the documents of its
    cards writes nothing and counts every card as unchanged. *)
Lemma incremental_run (cards : list json) (d : gmap string string) :
  cards_ok cards 0 = true ->
  (forall i card, cards !! i = Some card -> d !! out_path i = Some (document card i)) ->
  main false (Some cards) (Some d) =
    Finished (<["index.json" := index_text (index_of cards 0 [])]>
                (reconciler (length cards) d).1)
             (index_of cards 0 [])
             {| r_total := length cards; r_written := 0;
                r_skipped := length cards;
                r_stale := (reconciler (length cards) d).2 |}.
Proof.
  intros Hok Hdocs. apply main_Finished.
  eexists. split; [by apply sync_writer_unchanged |]. done.
Qed.

(** C1: idempotence of the incremental run. Running again with the same
    cards on the directory a finished run left writes no per-card document
    and counts every card as unchanged (written 0, skipped the card count);
    it also removes nothing and leaves the directory and the index map as
    they were. The second run is the change-detecting one (no [--force]);
    the first may be of either mode. *)
Theorem idempotence (force : bool) (cards : list json)
        (out : option (gmap string string))
        (d : gmap string string) (ix : dict) (r : report) :
  main force (Some cards) out = Finished d ix r ->
  main false (Some cards) (Some d) =
    Finished d ix {| r_total := length cards; r_written := 0;
                     r_skipped := length cards; r_stale := 0 |}.
Proof.
  intros H.
  destruct (finished_cards_ok _ _ _ _ _ _ H) as [Hok ->].
  destruct (finished_documents _ _ _ _ _ _ H) as (Hdocs & _ & _ & Hindex).
  rewrite incremental_run by done.
  rewrite reconciler_count, (finished_no_stale _ _ _ _ _ _ H). simpl.
  f_equal. apply map_eq. intros f. rewrite final_lookup.
  destruct (finished_lookup _ _ _ _ _ _ f H) as (st & _ & Hf).
  destruct (String.eqb_spec f "index.json") as [-> | _]; [done |].
  destruct (is_stale (length cards) f); done.
Qed.

Lemma idempotence_witness :
  main false (Some sample_cards) None
    = Finished sample_dir (final_index (main false (Some sample_cards) None))
        {| r_total := 3; r_written := 3; r_skipped := 0; r_stale := 0 |} /\
  main false (Some sample_cards) (Some sample_dir)
    = Finished sample_dir (final_index (main false (Some sample_cards) None))
        {| r_total := length sample_cards; r_written := 0;
           r_skipped := length sample_cards; r_stale := 0 |}.
Proof.
  assert (main false (Some sample_cards) None
    = Finished sample_dir (final_index (main false (Some sample_cards) None))
        {| r_total := 3; r_written := 3; r_skipped := 0; r_stale := 0 |}) as H
    by (vm_compute; reflexivity).
  split; [exact H | exact (idempotence _ _ _ _ _ _ H)].
Defined.

(** In force mode, by contrast, the second run on the directory left by the
    first writes all three documents again and counts none as unchanged. *)
Example rerun_under_force_writes_all :
  final_out (main true (Some sample_cards) None) = Some sample_dir /\
  final_report (main true (Some sample_cards) (Some sample_dir))
    = Some {| r_total := 3; r_written := 3; r_skipped := 0; r_stale := 0 |}.
Proof. split; vm_compute; reflexivity. Qed.

(** The number of entries that a reconciler pass for [m] cards removes from
    a directory that holds the documents [m..n-1]. *)
Lemma stale_count (m n : nat) (d : gmap string string) :
  (forall i, (m <= i < n)%nat -> is_Some (d !! out_path i)) ->
  (forall i, (n <= i)%nat -> d !! out_path i = None) ->
  (n - m <= (reconciler m d).2)%nat /\
  (only_documents d -> (reconciler m d).2 = (n - m)%nat).
Proof.
  intros Hsome Hnone. rewrite reconciler_count.
  set (l := out_path <$> seq m (n - m)).
  set (k := filter (fun f => is_stale m f = true) (listdir d)).
  assert (length l = (n - m)%nat) as Hl by (unfold l; by rewrite length_fmap, length_seq).
  assert (NoDup l) as Hnodup.
  { apply NoDup_fmap_2_strong; [| apply NoDup_seq]. intros i j _ _. apply out_path_inj. }
  assert (forall f, f ∈ l <-> exists i, f = out_path i /\ (m <= i < n)%nat) as Hin.
  { intros f. unfold l. rewrite list_elem_of_fmap. split.
    - intros (i & -> & Hi%elem_of_seq). exists i. split; [done | lia].
    - intros (i & -> & Hi). exists i. split; [done |]. apply elem_of_seq. lia. }
  assert (l ⊆+ k) as Hsub.
  { apply NoDup_submseteq; [done |]. intros f (i & -> & Hi)%Hin.
    apply list_elem_of_filter. split.
    - rewrite is_stale_out_path. apply Nat.leb_le. lia.
    - apply elem_of_listdir. by apply Hsome. }
  apply submseteq_length in Hsub. split; [lia |].
  intros Honly. assert (k ⊆+ l) as Hsup.
  { apply NoDup_submseteq; [apply NoDup_filter, NoDup_fst_map_to_list |].
    intros f [Hstale Hf%elem_of_listdir]%list_elem_of_filter. apply Hin.
    destruct (Honly f Hf) as [-> | [i ->]]; [done |]. exists i. split; [done |].
    rewrite is_stale_out_path in Hstale. apply Nat.leb_le in Hstale.
    destruct (Nat.lt_ge_cases i n); [lia |]. rewrite Hnone in Hf by done.
    by destruct Hf. }
  apply submseteq_length in Hsup. lia.
Qed.

(** C4: staleness correctness. After a finished run on N cards, the
    change-detecting run (no [--force]) on the first M < N of them writes no
    document and counts the M cards as unchanged; the documents 0..M-1 are
    the same texts as before, the N-M documents M..N-1, which existed, are
    gone, and every other entry but the index file that is not stale for M
    cards is as before. The run removes at least those N-M entries, and
    exactly N-M when the first run started from a directory holding
    nothing but documents and the index file. *)
Theorem staleness (force : bool) (cards : list json)
        (out : option (gmap string string))
        (d1 : gmap string string) (ix1 : dict) (r1 : report) (m : nat) :
  main force (Some cards) out = Finished d1 ix1 r1 ->
  (m < length cards)%nat ->
  exists d2 ix2 r2,
    main false (Some (take m cards)) (Some d1) = Finished d2 ix2 r2 /\
    r_written r2 = 0%nat /\ r_skipped r2 = m /\
    (forall i, (i < m)%nat ->
       is_Some (d1 !! out_path i) /\ d2 !! out_path i = d1 !! out_path i) /\
    (forall i, (m <= i < length cards)%nat ->
       is_Some (d1 !! out_path i) /\ d2 !! out_path i = None) /\
    (forall i, (length cards <= i)%nat ->
       d1 !! out_path i = None /\ d2 !! out_path i = None) /\
    (forall f, f <> "index.json" -> is_stale m f = false -> d2 !! f = d1 !! f) /\
    (length cards - m <= r_stale r2)%nat /\
    (only_documents (default ∅ out) -> r_stale r2 = (length cards - m)%nat).
Proof.
  intros H Hm.
  destruct (finished_cards_ok _ _ _ _ _ _ H) as [Hok _].
  destruct (finished_documents _ _ _ _ _ _ H) as (Hdocs & Hnone & Hsome & _).
  assert (length (take m cards) = m) as Hlen by (rewrite length_take; lia).
  eexists _, _, _. split.
  - apply incremental_run; [by apply cards_ok_take |].
    intros i card [Hi _]%lookup_take_Some. by apply Hdocs.
  - rewrite Hlen. repeat split; try done.
    + by apply Hsome; lia.
    + rewrite final_lookup, is_stale_out_path.
      rewrite (proj2 (String.eqb_neq _ _) (out_path_not_index i)).
      by rewrite (proj2 (Nat.leb_gt _ _)) by lia.
    + by apply Hsome; lia.
    + rewrite final_lookup, is_stale_out_path.
      rewrite (proj2 (String.eqb_neq _ _) (out_path_not_index i)).
      by rewrite (proj2 (Nat.leb_le _ _)) by lia.
    + by apply Hnone.
    + rewrite final_lookup, is_stale_out_path.
      rewrite (proj2 (String.eqb_neq _ _) (out_path_not_index i)).
      by rewrite (proj2 (Nat.leb_le _ _)) by lia.
    + intros f Hf Hstale. rewrite final_lookup, Hstale.
      by rewrite (proj2 (String.eqb_neq _ _) Hf).
    + apply (stale_count m (length cards) d1); [intros i Hi; apply Hsome; lia | done].
    + intros Hout. apply (stale_count m (length cards) d1);
        [intros i Hi; apply Hsome; lia | done |].
      by eapply finished_only_documents.
Qed.

Lemma staleness_witness :
  main false (Some sample_cards) None
    = Finished sample_dir (final_index (main false (Some sample_cards) None))
        {| r_total := 3; r_written := 3; r_skipped := 0; r_stale := 0 |} /\
  (1 < length sample_cards)%nat /\
  exists d2 ix2 r2,
    main false (Some (take 1 sample_cards)) (Some sample_dir) = Finished d2 ix2 r2 /\
    r_written r2 = 0%nat /\ r_skipped r2 = 1%nat /\
    (forall i, (i < 1)%nat ->
       is_Some (sample_dir !! out_path i) /\ d2 !! out_path i = sample_dir !! out_path i) /\
    (forall i, (1 <= i < length sample_cards)%nat ->
       is_Some (sample_dir !! out_path i) /\ d2 !! out_path i = None) /\
    (forall i, (length sample_cards <= i)%nat ->
       sample_dir !! out_path i = None /\ d2 !! out_path i = None) /\
    (forall f, f <> "index.json" -> is_stale 1 f = false -> d2 !! f = sample_dir !! f) /\
    (length sample_cards - 1 <= r_stale r2)%nat /\
    (only_documents (default ∅ None) -> r_stale r2 = (length sample_cards - 1)%nat).
Proof.
  assert (main false (Some sample_cards) None
    = Finished sample_dir (final_index (main false (Some sample_cards) None))
        {| r_total := 3; r_written := 3; r_skipped := 0; r_stale := 0 |}) as H
    by (vm_compute; reflexivity).
  assert (1 < length sample_cards)%nat as Hm by (simpl; lia).
  split; [exact H |]. split; [exact Hm |].
  exact (staleness _ _ _ _ _ _ 1%nat H Hm).
Defined.

(** In force mode, by contrast, the retained document 0 is written again
    by the second run, with the same text. *)
Example shrunk_rerun_under_force_rewrites :
  final_out (main true (Some sample_cards) None) = Some sample_dir /\
  final_report (main true (Some (take 1 sample_cards)) (Some sample_dir))
    = Some {| r_total := 1; r_written := 1; r_skipped := 0; r_stale := 2 |}.
Proof. split; vm_compute; reflexivity. Qed.

(** With [--force] an iteration writes the document whatever the directory
    holds. *)
Lemma sync_card_force (card : json) (i : nat) (st : state) (name : string) :
  card_name card i = Some name ->
  sync_card true card i st =
    Some {| out_dir := <[out_path i := document card i]> (out_dir st);
            index_map := dict_set name (index_entry i name) (index_map st);
            written := S (written st);
            skipped := skipped st |}.
Proof.
  unfold card_name, sync_card, document.
  destruct card as [| | | | |l|c]; try done.
  destruct (get_or c "name" _); try done. by intros [= ->].
Qed.

(** C5: in force mode every iteration of the sync writer writes its
    document without looking at the directory, also when the entry already
    holds the same text, and a finished run reports as many written
    documents as there are cards and none skipped; every document is in
    place. *)
Theorem force_mode (cards : list json) (out : option (gmap string string))
        (d : gmap string string) (ix : dict) (r : report) :
  main true (Some cards) out = Finished d ix r ->
  r_total r = length cards /\
  r_written r = length cards /\
  r_skipped r = 0%nat /\
  (forall i card, cards !! i = Some card -> d !! out_path i = Some (document card i)) /\
  (forall card i st name,
     card_name card i = Some name ->
     exists st',
       sync_card true card i st = Some st' /\
       out_dir st' = <[out_path i := document card i]> (out_dir st) /\
       written st' = S (written st) /\ skipped st' = skipped st).
Proof.
  intros H. pose proof (finished_documents _ _ _ _ _ _ H) as (Hdocs & _).
  apply main_Finished in H as (st & Hst & _ & _ & ->).
  apply sync_writer_counters in Hst as [_ Hforce].
  destruct (Hforce eq_refl) as [-> ->]. simpl.
  repeat split; try done.
  intros card i st0 name Hname. eexists. split; [by apply sync_card_force |]. done.
Qed.

Lemma force_mode_witness :
  main true (Some sample_cards) (Some sample_dir)
    = Finished sample_dir (final_index (main false (Some sample_cards) None))
        {| r_total := 3; r_written := 3; r_skipped := 0; r_stale := 0 |} /\
  r_written {| r_total := 3; r_written := 3; r_skipped := 0; r_stale := 0 |}
    = length sample_cards /\
  r_skipped {| r_total := 3; r_written := 3; r_skipped := 0; r_stale := 0 |} = 0%nat.
Proof.
  assert (main true (Some sample_cards) (Some sample_dir)
    = Finished sample_dir (final_index (main false (Some sample_cards) None))
        {| r_total := 3; r_written := 3; r_skipped := 0; r_stale := 0 |}) as H
    by (vm_compute; reflexivity).
  pose proof (force_mode _ _ _ _ _ H) as (_ & Hw & Hs & _).
  split; [exact H |]. split; [exact Hw | exact Hs].
Defined.

(** ** The reconciler's rule *)

Lemma is_stale_no_suffix (total : nat) (f : string) :
  endswith ".json" f = false -> is_stale total f = false.
Proof. unfold is_stale. intros ->. by destruct (String.eqb f "index.json"). Qed.

Lemma is_stale_stem (total : nat) (stem : string) :
  occurs ".json" stem = false ->
  is_stale total (stem +:+ ".json") =
    match py_int stem with
    | Some idx => Z.of_nat total <=? idx
    | None => false
    end.
Proof.
  intros Hocc. unfold is_stale.
  rewrite endswith_app, replace_json_suffix by done.
  destruct (String.eqb_spec (stem +:+ ".json") "index.json") as [Heq | _]; [| done].
  apply (f_equal (replace ".json" EmptyString)) in Heq.
  rewrite replace_json_suffix in Heq by done. by subst stem.
Qed.

(** C2, as the code has it: the reconciler leaves alone every entry whose
    name does not end in [".json"], and the index file; an entry named
    [stem.json], where [".json"] does not occur in [stem], is removed when
    [stem] reads as an integer that is at least the card count, and is left
    alone when [stem] reads as a smaller integer or does not read as an
    integer at all. *)
Theorem reconciler_rule (total : nat) (d : gmap string string) (f stem : string) :
  (endswith ".json" f = false -> (reconciler total d).1 !! f = d !! f) /\
  (reconciler total d).1 !! "index.json" = d !! "index.json" /\
  (occurs ".json" stem = false ->
   (reconciler total d).1 !! (stem +:+ ".json") =
     match py_int stem with
     | Some idx => if Z.of_nat total <=? idx then None else d !! (stem +:+ ".json")
     | None => d !! (stem +:+ ".json")
     end).
Proof.
  repeat split.
  - intros Hf. by rewrite reconciler_lookup, is_stale_no_suffix.
  - by rewrite reconciler_lookup.
  - intros Hocc. rewrite reconciler_lookup, is_stale_stem by done.
    by destruct (py_int stem).
Qed.

Lemma reconciler_rule_witness :
  (endswith ".json" "7" = false /\
   (reconciler 1 sample_entries).1 !! "7" = sample_entries !! "7") /\
  (occurs ".json" "5" = false /\
   (reconciler 1 sample_entries).1 !! ("5" +:+ ".json") =
     match py_int "5" with
     | Some idx => if Z.of_nat 1 <=? idx then None else sample_entries !! ("5" +:+ ".json")
     | None => sample_entries !! ("5" +:+ ".json")
     end).
Proof.
  pose proof (reconciler_rule 1 sample_entries "7" "5") as (H1 & _ & H2).
  assert (endswith ".json" "7" = false) as E1 by reflexivity.
  assert (occurs ".json" "5" = false) as E2 by reflexivity.
  split; [exact (conj E1 (H1 E1)) | exact (conj E2 (H2 E2))].
Defined.

(** C2 as stated fails: an entry named ["7"] reads as the integer 7, which
    is at least the card count 1, and the reconciler does not remove it. *)
Lemma reconciler_keeps_unsuffixed_integer :
  py_int "7" = Some 7 /\
  (Z.of_nat 1 <=? 7) = true /\
  (reconciler 1 sample_entries).1 !! "7" = Some "seven" /\
  final_dir (main false (Some [sample_card_0]) (Some sample_entries)) !! "7"
    = Some "seven".
Proof. repeat split; vm_compute; reflexivity. Qed.

(** The removal of every occurrence of [".json"] before [int] makes the
    reconciler remove an entry such as ["1.json2.json"], whose name without
    its suffix is not an integer. *)
Example reconciler_joins_digits :
  py_int "1.json2" = None /\
  is_stale 1 "1.json2.json" = true /\
  (reconciler 1 {[ "1.json2.json" := "text" ]}).1 !! "1.json2.json" = None.
Proof. repeat split; vm_compute; reflexivity. Qed.
(** ** The transformer *)

Lemma stat_step_app (card : dict) (attrs : list json) (kd : string * string) :
  stat_step card attrs kd = attrs ++ stat_step card [] kd.
Proof.
  unfold stat_step. destruct kd as [key display].
  destruct (get card key); rewrite ?app_nil_r; try done.
  destruct (_ && _); rewrite ?app_nil_r; [| done].
  destruct (truthy (get d "color")); simpl; [| done].
  by rewrite <- app_assoc.
Qed.

Lemma section_step_app (theme : dict) (attrs : list json) (kl : string * string) :
  section_step theme attrs kl = attrs ++ section_step theme [] kl.
Proof.
  unfold section_step. destruct kl as [key label].
  destruct (get theme key); rewrite ?app_nil_r; try done.
  destruct (negb _); rewrite ?app_nil_r; [done |].
  destruct (truthy (get d "background")), (truthy (get d "color")),
    (truthy (get d "border")), (truthy (get d "accentColor"));
    simpl; rewrite <- ?app_assoc, ?app_nil_r; done.
Qed.

Lemma fold_left_steps {K : Type} (f : list json -> K -> list json) :
  (forall attrs k, f attrs k = attrs ++ f [] k) ->
  forall l attrs, fold_left f l attrs = attrs ++ flat_map (f []) l.
Proof.
  intros Hf l. induction l as [|k l IH]; intros attrs; simpl.
  - by rewrite app_nil_r.
  - by rewrite IH, Hf, <- app_assoc.
Qed.

Lemma theme_block_app (card : dict) (attrs : list json) :
  theme_block card attrs [] =
    (attrs ++ theme_attrs card,
     if theme_ok card then [("theme", get card "theme")] else []).
Proof.
  unfold theme_attrs, theme_block, theme_ok.
  destruct (get card "theme") as [| | | | | |theme];
    cbn [fst is_dict andb]; rewrite ?app_nil_r, ?andb_false_r; try done.
  destruct theme as [|kv theme]; cbn [truthy fst andb]; [by rewrite app_nil_r |].
  rewrite !(fold_left_steps _ (section_step_app _)).
  cbn [fst dict_set]. f_equal.
  destruct (truthy _); [| done]. by rewrite <- app_assoc.
Qed.

(** The document, field by field. *)
Lemma build_metadata_fields (card : dict) (idx : nat) :
  build_metadata card idx =
    [("name", get_or card "name" (JStr (placeholder idx)));
     ("description", if truthy (get card "flavorText") then get card "flavorText"
                     else JStr "A Whirlpool card");
     ("image", get_or card "image" (JStr EmptyString));
     ("external_url", JStr "https://howlonghasitben.github.io/cog-works/");
     ("attributes", JArr (all_attrs card))]
    ++ (if theme_ok card then [("properties", JObj [("theme", get card "theme")])]
        else []).
Proof.
  unfold build_metadata, all_attrs.
  rewrite theme_block_app, (fold_left_steps _ (stat_step_app card)).
  rewrite <- app_assoc.
  by destruct (theme_ok card).
Qed.


(** C6, as the code has it: the document has a properties field exactly
    when the record's theme is a non-empty object, and then the field is
    the map with the single key [theme] bound to that theme as it is;
    otherwise the field is absent, and it is never the empty map. *)
Theorem properties_field (card : dict) (idx : nat) :
  dict_get "properties" (build_metadata card idx) =
    (if theme_ok card then Some (JObj [("theme", get card "theme")]) else None) /\
  (theme_ok card = true <->
   exists kv theme, dict_get "theme" card = Some (JObj (kv :: theme))) /\
  dict_get "properties" (build_metadata card idx) <> Some (JObj []).
Proof.
  rewrite build_metadata_fields. split; [| split].
  - by destruct (theme_ok card).
  - unfold theme_ok, get. split.
    + destruct (dict_get "theme" card) as [[| | | | | |[|kv theme]]|];
        simpl; rewrite ?andb_false_r; try done.
      intros _. eauto.
    + by intros (kv & theme & ->).
  - by destruct (theme_ok card).
Qed.

(** C6 as stated fails: a record whose theme is present but is the empty
    object, or is a string, gets a document without a properties field. *)
Lemma properties_absent_with_theme_present :
  (is_Some (dict_get "theme" [("theme", JObj [])]) /\
   dict_get "properties" (build_metadata [("theme", JObj [])] 0) = None) /\
  (is_Some (dict_get "theme" [("theme", JStr "dark")]) /\
   dict_get "properties" (build_metadata [("theme", JStr "dark")] 0) = None).
Proof. repeat split; by eauto. Qed.

(** ** Stat traits *)










(** ** The index map *)

Lemma dict_get_set (k k' : string) (v : json) (d : dict) :
  dict_get k' (dict_set k v d) = if String.eqb k' k then Some v else dict_get k' d.
Proof.
  induction d as [|[k0 v0] d IH]; simpl.
  - by destruct (String.eqb k' k).
  - destruct (String.eqb_spec k k0) as [<- | Hne]; simpl.
    + by destruct (String.eqb k' k).
    + rewrite IH. destruct (String.eqb_spec k' k0) as [-> | _]; [| done].
      by rewrite (proj2 (String.eqb_neq k0 k)).
Qed.

Lemma dict_set_keys (k : string) (v : json) (d : dict) :
  (dict_set k v d).*1 =
    match dict_get k d with
    | Some _ => d.*1
    | None => d.*1 ++ [k]
    end.
Proof.
  induction d as [|[k0 v0] d IH]; [done |].
  cbn [dict_set dict_get].
  destruct (String.eqb_spec k k0) as [<- | Hne]; [done |].
  rewrite !fmap_cons, IH. by destruct (dict_get k d).
Qed.

Lemma dict_get_None (k : string) (d : dict) : dict_get k d = None <-> k ∉ d.*1.
Proof.
  induction d as [|[k0 v0] d IH]; simpl.
  - split; [intros _; apply not_elem_of_nil | done].
  - rewrite not_elem_of_cons. destruct (String.eqb_spec k k0) as [-> | Hne].
    + split; [done | by intros [? _]].
    + rewrite IH. tauto.
Qed.

Lemma dict_set_NoDup (k : string) (v : json) (d : dict) :
  NoDup d.*1 -> NoDup (dict_set k v d).*1.
Proof.
  intros Hd. rewrite dict_set_keys. destruct (dict_get k d) eqn:E; [done |].
  apply NoDup_app. split; [done |]. split; [| apply NoDup_singleton].
  intros x Hx ->%list_elem_of_singleton. by apply dict_get_None in E.
Qed.

Lemma index_of_lookup (cards : list json) (i : nat) (ix : dict) (name : string) :
  cards_ok cards i = true ->
  dict_get name (index_of cards i ix) =
    match last_named cards i name with
    | Some j => Some (index_entry j name)
    | None => dict_get name ix
    end.
Proof.
  revert i ix. induction cards as [|card cards IH]; intros i ix; simpl; [done |].
  destruct (card_name card i) as [n|]; [| done].
  intros Hok. rewrite IH by done.
  destruct (last_named cards (S i) name); [done |].
  rewrite dict_get_set. by destruct (String.eqb_spec name n) as [-> | _].
Qed.

Lemma index_of_NoDup (cards : list json) (i : nat) (ix : dict) :
  NoDup ix.*1 -> NoDup (index_of cards i ix).*1.
Proof.
  revert i ix. induction cards as [|card cards IH]; intros i ix Hix; simpl; [done |].
  destruct (card_name card i); [| done]. by apply IH, dict_set_NoDup.
Qed.

Lemma last_named_Some (cards : list json) (i : nat) (name : string) (j : nat) :
  last_named cards i name = Some j ->
  exists card, cards !! (j - i)%nat = Some card /\ card_name card j = Some name /\
               (i <= j)%nat.
Proof.
  revert i. induction cards as [|card cards IH]; intros i; simpl; [done |].
  destruct (last_named cards (S i) name) as [j'|] eqn:E.
  - intros [= ->]. destruct (IH _ E) as (card' & Hj & Hname & Hle).
    exists card'. replace (j - i)%nat with (S (j - S i)) by lia.
    split; [exact Hj |]. split; [done | lia].
  - destruct (card_name card i) as [n|] eqn:Hn; [| done].
    destruct (String.eqb_spec name n) as [-> | _]; [| done].
    intros [= <-]. exists card. rewrite Nat.sub_diag. by split.
Qed.

Lemma last_named_last (cards : list json) (i k : nat) (card : json) (name : string) :
  cards !! k = Some card -> card_name card (i + k) = Some name ->
  (forall j card', (k < j)%nat -> cards !! j = Some card' ->
     card_name card' (i + j) <> Some name) ->
  last_named cards i name = Some (i + k)%nat.
Proof.
  revert i k. induction cards as [|c cards IH]; intros i k Hk Hname Hlater; [done |].
  simpl. destruct k as [|k]; simpl in Hk.
  - injection Hk as ->. rewrite Nat.add_0_r in *.
    destruct (last_named cards (S i) name) as [j|] eqn:E.
    + apply last_named_Some in E as (card' & Hj & Hn & Hle). exfalso.
      apply (Hlater (S (j - S i)) card'); [lia | done |].
      by replace (i + S (j - S i))%nat with j by lia.
    + by rewrite Hname, String.eqb_refl.
  - rewrite (IH (S i) k); [f_equal; lia | done | by replace (S i + k)%nat with (i + S k)%nat by lia |].
    intros j card' Hj Hc. replace (S i + j)%nat with (i + S j)%nat by lia.
    apply (Hlater (S j)); [lia | done].
Qed.

(** ** The slug *)

Lemma lstrip_re_sub (b : bool) (s : string) :
  lstrip "-" (re_sub_from b s) = re_sub_from true s.
Proof.
  revert b. induction s as [|c s IH]; intros b; simpl; [done |].
  destruct (is_slug_char c) eqn:Hc; simpl.
  - destruct (Ascii.eqb_spec c "-") as [-> | _]; [discriminate Hc | done].
  - destruct b; simpl; apply IH.
Qed.

Lemma rstrip_cons (c : ascii) (s : string) :
  c <> "-"%char -> rstrip "-" (String c s) = String c (rstrip "-" s).
Proof.
  intros Hc. simpl. destruct (rstrip "-" s); [| done].
  by destruct (Ascii.eqb_spec c "-").
Qed.

Lemma rstrip_hyphen (s : string) :
  rstrip "-" (String "-" s) = hyphen_before (rstrip "-" s).
Proof. simpl. by destruct (rstrip "-" s). Qed.

Lemma alnum_runs_join_nonempty (s : string) :
  alnum_runs s <> [] -> join "-" (alnum_runs s) <> EmptyString.
Proof.
  assert (forall l, Forall (fun w => w <> EmptyString) l -> l <> [] ->
                    join "-" l <> EmptyString) as Hjoin.
  { intros [|w [|w' l]] Hl Hne; [done | ..]; apply Forall_cons in Hl as [Hw _];
      simpl; by destruct w. }
  intros Hne. apply Hjoin; [| done]. clear.
  induction s as [|c s IH]; simpl; [done |].
  destruct (is_slug_char c); [| done].
  destruct s as [|c' s']; [by repeat constructor |].
  destruct (is_slug_char c'); [| by constructor].
  destruct (alnum_runs (String c' s')) as [|w l]; [by repeat constructor |].
  apply Forall_cons in IH as [_ Hl]. by constructor.
Qed.

Lemma join_cons_char (c : ascii) (w : string) (l : list string) :
  join "-" (String c w :: l) = String c (join "-" (w :: l)).
Proof. by destruct l. Qed.

(** The substitution followed by the right strip, for both states of the
    scan. *)
Lemma rstrip_re_sub (s : string) :
  rstrip "-" (re_sub_from true s) = join "-" (alnum_runs s) /\
  rstrip "-" (re_sub_from false s) =
    (if starts_outside s then hyphen_before (join "-" (alnum_runs s))
     else join "-" (alnum_runs s)).
Proof.
  induction s as [|c s [IHt IHf]]; [done |].
  cbn [re_sub_from alnum_runs starts_outside].
  destruct (is_slug_char c) eqn:Hc; cbn [negb].
  - assert (c <> "-"%char) as Hne by (intros ->; discriminate Hc).
    rewrite !rstrip_cons, IHf by done.
    assert (String c (if starts_outside s
                      then hyphen_before (join "-" (alnum_runs s))
                      else join "-" (alnum_runs s))
            = join "-" match s with
                       | EmptyString => [String c EmptyString]
                       | String c' _ =>
                           if is_slug_char c' then
                             match alnum_runs s with
                             | w :: l => String c w :: l
                             | [] => [String c EmptyString]
                             end
                           else String c EmptyString :: alnum_runs s
                       end) as Heq; [| by rewrite Heq].
    destruct s as [|c' s']; [done |]. cbn [starts_outside].
    destruct (is_slug_char c') eqn:Hc'; cbn [negb].
    + destruct (alnum_runs (String c' s')) as [|w l] eqn:E;
        [| by rewrite join_cons_char].
      simpl in E. rewrite Hc' in E. destruct s' as [|c'' s'']; [done |].
      by destruct (is_slug_char c''), (alnum_runs (String c'' s'')).
    + pose proof (alnum_runs_join_nonempty (String c' s')) as Hjoin.
      destruct (alnum_runs (String c' s')) as [|w l]; [done |].
      specialize (Hjoin ltac:(done)).
      destruct (join "-" (w :: l)) eqn:E; [done |]. cbn [hyphen_before].
      change (join "-" (String c EmptyString :: w :: l))
        with (String c (String "-" (join "-" (w :: l)))). by rewrite E.
  - split; [done |]. by rewrite rstrip_hyphen, IHt.
Qed.

(** The slug is the maximal runs of [a-z0-9] of the lowercased name, joined
    by single hyphens. *)
Lemma slugify_runs (name : string) :
  slugify name = join "-" (alnum_runs (lower name)).
Proof.
  unfold slugify, strip, re_sub. rewrite lstrip_re_sub. apply rstrip_re_sub.
Qed.

Lemma cards_ok_lookup (cards : list json) (i k : nat) (card : json) :
  cards_ok cards i = true -> cards !! k = Some card ->
  is_Some (card_name card (i + k)).
Proof.
  revert i k. induction cards as [|c cards IH]; intros i k Hok Hk; [done |].
  simpl in Hok. destruct (card_name c i) as [n|] eqn:Hn; [| done].
  destruct k as [|k]; simpl in Hk.
  - injection Hk as <-. rewrite Nat.add_0_r, Hn. eauto.
  - replace (i + S k)%nat with (S i + k)%nat by lia. by apply IH.
Qed.

Lemma last_named_is_Some (cards : list json) (i k : nat) (card : json) (name : string) :
  cards !! k = Some card -> card_name card (i + k) = Some name ->
  exists j, last_named cards i name = Some j /\ (i + k <= j)%nat.
Proof.
  revert i k. induction cards as [|c cards IH]; intros i k Hk Hname; [done |].
  simpl. destruct k as [|k]; simpl in Hk.
  - injection Hk as ->. rewrite Nat.add_0_r in *.
    destruct (last_named cards (S i) name) as [j|] eqn:E.
    + apply last_named_Some in E as (_ & _ & _ & Hle). exists j. split; [done | lia].
    + rewrite Hname, String.eqb_refl. eauto.
  - replace (i + S k)%nat with (S i + k)%nat in * by lia.
    destruct (IH _ _ Hk Hname) as (j & -> & Hle). eauto.
Qed.

(** C8: after a finished run, the index map binds the name of a card to
    the position of the last card of that name, with the slug of the name;
    every binding comes from a card, no name is bound twice, and the slug
    is the lowercased name with each maximal run of characters outside
    [a-z0-9] turned into one hyphen and the hyphens at both ends removed,
    that is, its maximal runs of [a-z0-9] joined by single hyphens. For
    the names "Alpha Beta", "Gamma!!", "Alpha Beta" the map has the two
    entries "Alpha Beta", at index 2, and "Gamma!!", with slug "gamma". *)
Theorem index_map_correct (force : bool) (cards : list json)
        (out : option (gmap string string))
        (d : gmap string string) (ix : dict) (r : report) :
  main force (Some cards) out = Finished d ix r ->
  (forall i card name,
     cards !! i = Some card -> card_name card i = Some name ->
     (forall j card', (i < j)%nat -> cards !! j = Some card' ->
        card_name card' j <> Some name) ->
     dict_get name ix
       = Some (JObj [("index", JInt (Z.of_nat i)); ("slug", JStr (slugify name))])) /\
  (forall name entry,
     dict_get name ix = Some entry ->
     exists i card,
       cards !! i = Some card /\ card_name card i = Some name /\
       entry = JObj [("index", JInt (Z.of_nat i)); ("slug", JStr (slugify name))]) /\
  NoDup ix.*1 /\
  (forall name,
     slugify name = strip "-" (re_sub (lower name)) /\
     slugify name = join "-" (alnum_runs (lower name))) /\
  final_index (main false (Some named_cards) None)
    = [("Alpha Beta", JObj [("index", JInt 2); ("slug", JStr "alpha-beta")]);
       ("Gamma!!", JObj [("index", JInt 1); ("slug", JStr "gamma")])] /\
  length (final_index (main false (Some named_cards) None)) = 2%nat.
Proof.
  intros H. destruct (finished_cards_ok _ _ _ _ _ _ H) as [Hok ->].
  split; [| split; [| split; [| split; [| split]]]].
  - intros i card name Hi Hname Hlater. rewrite index_of_lookup by done.
    by rewrite (last_named_last cards 0 i card name).
  - intros name entry. rewrite index_of_lookup by done.
    destruct (last_named cards 0 name) as [j|] eqn:E; [| done].
    intros [= <-]. apply last_named_Some in E as (card & Hj & Hname & _).
    rewrite Nat.sub_0_r in Hj. eauto.
  - apply index_of_NoDup. constructor.
  - intros name. split; [done | apply slugify_runs].
  - vm_compute. reflexivity.
  - vm_compute. reflexivity.
Qed.

Lemma index_map_correct_witness :
  main false (Some named_cards) None
    = Finished (final_dir (main false (Some named_cards) None))
               (final_index (main false (Some named_cards) None))
               {| r_total := 3; r_written := 3; r_skipped := 0; r_stale := 0 |} /\
  dict_get "Alpha Beta" (final_index (main false (Some named_cards) None))
    = Some (JObj [("index", JInt 2); ("slug", JStr (slugify "Alpha Beta"))]) /\
  NoDup (final_index (main false (Some named_cards) None)).*1.
Proof.
  assert (main false (Some named_cards) None
    = Finished (final_dir (main false (Some named_cards) None))
               (final_index (main false (Some named_cards) None))
               {| r_total := 3; r_written := 3; r_skipped := 0; r_stale := 0 |}) as H
    by (vm_compute; reflexivity).
  pose proof (index_map_correct _ _ _ _ _ _ H) as (_ & _ & Hnodup & _).
  split; [exact H |]. split; [vm_compute; reflexivity | exact Hnodup].
Defined.

(** C10: in a finished run, every card is a record filed in the index map
    under a name that is the name field of the document written for it;
    an iteration of the sync writer enters the card under that name; and
    for a record without a name field both are the text "Card_" followed
    by the decimal position of the card (in the instance below, "Card_1"
    for the card at position 1). *)
Theorem name_consistency (force : bool) (cards : list json)
        (out : option (gmap string string))
        (d : gmap string string) (ix : dict) (r : report)
        (i : nat) (card : json) :
  main force (Some cards) out = Finished d ix r ->
  cards !! i = Some card ->
  exists c name,
    card = JObj c /\
    card_name card i = Some name /\
    dict_get "name" (build_metadata c i) = Some (JStr name) /\
    d !! out_path i = Some (serialize (build_metadata c i)) /\
    is_Some (dict_get name ix) /\
    (forall st st', sync_card force card i st = Some st' ->
       index_map st' = dict_set name (index_entry i name) (index_map st)) /\
    (dict_get "name" c = None ->
     name = "Card_" +:+ str_nat i /\
     dict_get "name" (build_metadata c i) = Some (JStr ("Card_" +:+ str_nat i)) /\
     is_Some (dict_get ("Card_" +:+ str_nat i) ix)).
Proof.
  intros H Hi. destruct (finished_cards_ok _ _ _ _ _ _ H) as [Hok ->].
  destruct (cards_ok_lookup _ 0 _ _ Hok Hi) as [name Hname]. simpl in Hname.
  destruct (finished_documents _ _ _ _ _ _ H) as (Hdocs & _).
  specialize (Hdocs _ _ Hi).
  pose proof Hname as Hget. unfold card_name in Hget.
  destruct card as [| | | | | |c]; try done.
  destruct (get_or c "name" (JStr (placeholder i))) as [| | | |n| |] eqn:E; try done.
  injection Hget as ->.
  assert (dict_get "name" (build_metadata c i) = Some (JStr name)) as Hdoc
    by (rewrite build_metadata_fields; simpl; by rewrite E).
  assert (is_Some (dict_get name (index_of cards 0 []))) as Hkey.
  { destruct (last_named_is_Some cards 0 i _ name Hi Hname) as (j & Hj & _).
    rewrite index_of_lookup, Hj by done. eauto. }
  exists c, name.
  split; [done |]. split; [done |]. split; [done |]. split; [done |].
  split; [done |]. split.
  - intros st st' (name' & Hname' & -> & _)%sync_card_Some. congruence.
  - intros Hnone.
    assert (name = "Card_" +:+ str_nat i) as ->.
    { unfold get_or in E. rewrite Hnone in E. simpl in E. injection E as <-. done. }
    split; [done |]. split; done.
Qed.

Lemma name_consistency_witness :
  main false (Some sample_cards) None
    = Finished sample_dir (final_index (main false (Some sample_cards) None))
        {| r_total := 3; r_written := 3; r_skipped := 0; r_stale := 0 |} /\
  sample_cards !! 1%nat = Some sample_card_1 /\
  card_name sample_card_1 1 = Some "Card_1" /\
  dict_get "name" (build_metadata [("flavorText", JStr "Second")] 1)
    = Some (JStr "Card_1") /\
  sample_dir !! "1.json"
    = Some (serialize (build_metadata [("flavorText", JStr "Second")] 1)) /\
  is_Some (dict_get "Card_1" (final_index (main false (Some sample_cards) None))).
Proof.
  assert (main false (Some sample_cards) None
    = Finished sample_dir (final_index (main false (Some sample_cards) None))
        {| r_total := 3; r_written := 3; r_skipped := 0; r_stale := 0 |}) as H
    by (vm_compute; reflexivity).
  assert (sample_cards !! 1%nat = Some sample_card_1) as Hi by reflexivity.
  split; [exact H |]. split; [exact Hi |].
  destruct (name_consistency _ _ _ _ _ _ _ _ H Hi)
    as (c & name & Hc & Hname & _ & Hd & _ & _ & Hp).
  unfold sample_card_1 in Hc. injection Hc as <-.
  destruct (Hp eq_refl) as (-> & Hdoc & Hix).
  split; [exact Hname |]. split; [exact Hdoc |]. split; [exact Hd | exact Hix].
Defined.

(** * Further properties *)

(** ** How a run ends *)

Lemma card_name_well_formed (card : json) (i : nat) :
  is_Some (card_name card i) <-> well_formed card = true.
Proof.
  unfold card_name, well_formed, get_or.
  destruct card as [| | | | | |c]; try (split; [by intros [? ?] | done]).
  destruct (dict_get "name" c) as [[| | | |s| |]|]; simpl;
    split; try done; try (by intros [? ?]); eauto.
Qed.

Lemma cards_ok_forallb (cards : list json) (i : nat) :
  cards_ok cards i = forallb well_formed cards.
Proof.
  revert i. induction cards as [|card cards IH]; intros i; simpl; [done |].
  pose proof (card_name_well_formed card i) as Hwf.
  destruct (card_name card i) as [n|].
  - rewrite (proj1 Hwf) by eauto. apply IH.
  - destruct (well_formed card); [| done]. by destruct (proj2 Hwf eq_refl).
Qed.

Lemma sync_writer_keeps_entries (force : bool) (cards : list json) (i : nat)
      (st : state) (f : string) :
  is_Some (out_dir st !! f) ->
  is_Some (out_dir (loop_state (sync_writer force cards i st)) !! f).
Proof.
  revert i st. induction cards as [|card cards IH]; intros i st Hf; simpl; [done |].
  destruct (sync_card force card i st) as [st1|] eqn:E; [| done].
  apply IH. rewrite (sync_card_lookup _ _ _ _ _ f E). by case_decide.
Qed.

(** X1: a card that is not an object, or whose name is present and is not a
    string, aborts the run, with or without the force flag: the run does
    not finish (no reconciliation, no index write), and it removes no
    entry of the output directory. *)
Theorem malformed_card_aborts (force : bool) (cards : list json)
        (out : option (gmap string string)) :
  forallb well_formed cards = false ->
  finished (main force (Some cards) out) = false /\
  (forall f, is_Some (default ∅ out !! f) ->
             is_Some (final_dir (main force (Some cards) out) !! f)).
Proof.
  intros Hbad. rewrite <- (cards_ok_forallb cards 0) in Hbad.
  pose proof (sync_writer_keeps_entries force cards 0 (initial out)) as Hkeep.
  unfold main. fold (initial out).
  destruct (sync_writer force cards 0 (initial out)) as [st|st] eqn:Hst.
  - assert (cards_ok cards 0 = true)
      by (apply (sync_writer_Completed force cards 0 (initial out)); eauto).
    congruence.
  - split; [done |]. intros f Hf. by apply Hkeep.
Qed.

Lemma malformed_card_aborts_witness :
  forallb well_formed [sample_card_0; JObj [("name", JNull)]; sample_card_2] = false /\
  finished (main false (Some [sample_card_0; JObj [("name", JNull)]; sample_card_2])
                 (Some sample_entries)) = false.
Proof.
  assert (forallb well_formed [sample_card_0; JObj [("name", JNull)]; sample_card_2]
          = false) as H by reflexivity.
  split; [exact H | exact (proj1 (malformed_card_aborts false _ (Some sample_entries) H))].
Defined.

Lemma sync_writer_raises_frame (force : bool) (good rest : list json) (bad : json)
      (i : nat) (st : state) :
  card_name bad (i + length good) = None ->
  exists st',
    sync_writer force (good ++ bad :: rest) i st = Raised st' /\
    forall f, (forall j, (j < length good)%nat -> f <> out_path (i + j)) ->
              out_dir st' !! f = out_dir st !! f.
Proof.
  revert i st. induction good as [|card good IH]; intros i st; simpl.
  - rewrite Nat.add_0_r. intros Hbad.
    rewrite (proj2 (sync_card_None force bad i st) Hbad). eauto.
  - intros Hbad. destruct (sync_card force card i st) as [st1|] eqn:E; [| eauto].
    destruct (IH (S i) st1) as (st' & Hst' & Hframe);
      [by replace (S i + length good)%nat with (i + S (length good))%nat by lia |].
    exists st'. split; [done |]. intros f Hf. rewrite Hframe.
    + rewrite (sync_card_lookup _ _ _ _ _ f E). rewrite decide_False; [done |].
      specialize (Hf 0%nat). rewrite Nat.add_0_r in Hf. apply Hf. lia.
    + intros j Hj. replace (S i + j)%nat with (i + S j)%nat by lia. apply Hf. lia.
Qed.

Lemma sync_writer_state_touched (force : bool) (cards : list json) (i : nat)
      (st : state) (f : string) :
  out_dir (loop_state (sync_writer force cards i st)) !! f = out_dir st !! f \/
  exists j, (j < length cards)%nat /\ f = out_path (i + j).
Proof.
  revert i st. induction cards as [|card cards IH]; intros i st; simpl; [by left |].
  destruct (sync_card force card i st) as [st1|] eqn:E; [| by left].
  destruct (IH (S i) st1) as [Hsame | (j & Hj & ->)].
  - rewrite Hsame, (sync_card_lookup _ _ _ _ _ f E).
    case_decide as Hf; [| by left].
    right. exists 0%nat. rewrite Nat.add_0_r. split; [lia | done].
  - right. exists (S j). split; [lia | f_equal; lia].
Qed.

Lemma endswith_out_path (i : nat) : endswith ".json" (out_path i) = true.
Proof. apply endswith_app. Qed.

(** X2: when the card at position k is not an object with an absent or
    string name, the run does not finish, and every entry of the output
    directory other than the documents of the positions before k is as
    before the run: the index file is not written, no stale entry is
    removed, and no document from position k on is written. *)
Theorem abort_on_malformed_card (force : bool) (good rest : list json) (bad : json)
        (out : option (gmap string string)) :
  well_formed bad = false ->
  finished (main force (Some (good ++ bad :: rest)) out) = false /\
  (forall f, (forall i, (i < length good)%nat -> f <> out_path i) ->
     final_dir (main force (Some (good ++ bad :: rest)) out) !! f = default ∅ out !! f) /\
  final_dir (main force (Some (good ++ bad :: rest)) out) !! "index.json"
    = default ∅ out !! "index.json".
Proof.
  intros Hbad.
  assert (card_name bad (0 + length good) = None) as Hname.
  { apply eq_None_not_Some. rewrite card_name_well_formed. congruence. }
  destruct (sync_writer_raises_frame force good rest bad 0 (initial out) Hname)
    as (st & Hst & Hframe).
  unfold main. fold (initial out). rewrite Hst. unfold final_dir. simpl.
  split; [done |]. split.
  - intros f Hf. by apply Hframe.
  - apply Hframe. intros j _ Heq. by apply (out_path_not_index (0 + j)).
Qed.

Lemma abort_on_malformed_card_witness :
  well_formed (JObj [("name", JNull)]) = false /\
  finished (main false (Some ([sample_card_0] ++ JObj [("name", JNull)] :: [sample_card_2]))
                 (Some sample_entries)) = false /\
  final_dir (main false (Some ([sample_card_0] ++ JObj [("name", JNull)] :: [sample_card_2]))
                  (Some sample_entries)) !! "index.json"
    = default ∅ (Some sample_entries) !! "index.json".
Proof.
  assert (well_formed (JObj [("name", JNull)]) = false) as H by reflexivity.
  pose proof (abort_on_malformed_card false [sample_card_0] [sample_card_2] _
                (Some sample_entries) H) as (Hfin & _ & Hix).
  split; [exact H |]. split; [exact Hfin | exact Hix].
Defined.

Lemma sync_writer_force_irrelevant (cards : list json) (i : nat) (st1 st2 : state) :
  out_dir st1 = out_dir st2 -> index_map st1 = index_map st2 ->
  completed (sync_writer true cards i st1) = completed (sync_writer false cards i st2) /\
  out_dir (loop_state (sync_writer true cards i st1))
    = out_dir (loop_state (sync_writer false cards i st2)) /\
  index_map (loop_state (sync_writer true cards i st1))
    = index_map (loop_state (sync_writer false cards i st2)).
Proof.
  revert i st1 st2. induction cards as [|card cards IH]; intros i st1 st2 Hd Hix;
    simpl; [done |].
  destruct (sync_card true card i st1) as [st1'|] eqn:E1;
    destruct (sync_card false card i st2) as [st2'|] eqn:E2.
  - apply IH.
    + apply sync_card_Some in E1 as (n1 & _ & _ & [(? & _) | (_ & -> & _)]); [done |].
      apply sync_card_Some in E2 as (n2 & _ & _ & [(_ & Hsame & -> & _) | (_ & -> & _)]).
      * rewrite Hd. by apply insert_id.
      * by rewrite Hd.
    + apply sync_card_Some in E1 as (n1 & Hn1 & -> & _).
      apply sync_card_Some in E2 as (n2 & Hn2 & -> & _). congruence.
  - apply sync_card_None in E2. apply sync_card_Some in E1 as (n1 & Hn1 & _). congruence.
  - apply sync_card_None in E1. apply sync_card_Some in E2 as (n2 & Hn2 & _). congruence.
  - done.
Qed.

(** X3: the force flag changes the counters only: with and without it a run
    ends the same way (finished or aborted) and leaves the same output
    directory and the same index map, and removes as many stale entries. *)
Theorem force_changes_counters_only (input : option (list json))
        (out : option (gmap string string)) :
  finished (main true input out) = finished (main false input out) /\
  final_out (main true input out) = final_out (main false input out) /\
  final_index (main true input out) = final_index (main false input out) /\
  r_stale <$> final_report (main true input out)
    = r_stale <$> final_report (main false input out).
Proof.
  destruct input as [cards|]; [| done].
  unfold main. fold (initial out).
  destruct (sync_writer_force_irrelevant cards 0 (initial out) (initial out) eq_refl eq_refl)
    as (Hc & Hd & Hix).
  destruct (sync_writer true cards 0 (initial out)) as [st1|st1];
    destruct (sync_writer false cards 0 (initial out)) as [st2|st2];
    simpl in Hc, Hd, Hix; try done.
  - rewrite Hd, Hix.
    by destruct (reconciler (length cards) (out_dir st2)).
  - simpl. by rewrite Hd.
Qed.

(** ** What a run writes and reports *)

Lemma sync_writer_written (cards : list json) (i : nat) (st st' : state)
      (d0 : gmap string string) :
  sync_writer false cards i st = Completed st' ->
  (forall j, (i <= j)%nat -> out_dir st !! out_path j = d0 !! out_path j) ->
  written st' = (written st + length (changed_from d0 cards i))%nat.
Proof.
  revert i st. induction cards as [|card cards IH]; intros i st; simpl.
  - intros [= <-] _. lia.
  - destruct (sync_card false card i st) as [st1|] eqn:E; [| done].
    intros Hst Hd0. rewrite (IH _ _ Hst).
    + rewrite length_app.
      apply sync_card_Some in E
        as (n & _ & _ & [(_ & Hsame & _ & -> & _) | ([? | Hne] & _ & -> & _)]);
        [| done |].
      * rewrite Hd0 in Hsame by lia. rewrite decide_True by done. simpl. lia.
      * rewrite Hd0 in Hne by lia. rewrite decide_False by done. simpl. lia.
    + intros j Hj. rewrite (sync_card_lookup _ _ _ _ _ _ E).
      rewrite decide_False; [apply Hd0; lia |].
      intros Heq%out_path_inj. lia.
Qed.

Lemma changed_from_length (d0 : gmap string string) (cards : list json) (i : nat) :
  (length (changed_from d0 cards i) <= length cards)%nat.
Proof.
  revert i. induction cards as [|card cards IH]; intros i; simpl; [lia |].
  rewrite length_app. specialize (IH (S i)). case_decide; simpl; lia.
Qed.

Lemma changed_from_absent (d0 : gmap string string) (cards : list json) (i : nat) :
  (forall j, (i <= j)%nat -> d0 !! out_path j = None) ->
  length (changed_from d0 cards i) = length cards.
Proof.
  revert i. induction cards as [|card cards IH]; intros i Hd0; simpl; [done |].
  rewrite length_app, IH by (intros j Hj; apply Hd0; lia).
  rewrite decide_False; [done |]. by rewrite Hd0.
Qed.

(** X4: without the force flag a finished run writes exactly the documents
    that differ from what the directory held under their path before the
    run (an absent entry differs) and skips the others; on a directory
    that holds none of the paths every document is written. *)
Theorem incremental_writes_changed (cards : list json)
        (out : option (gmap string string))
        (d : gmap string string) (ix : dict) (r : report) :
  main false (Some cards) out = Finished d ix r ->
  r_written r = length (changed_from (default ∅ out) cards 0) /\
  r_skipped r = (length cards - length (changed_from (default ∅ out) cards 0))%nat /\
  ((forall i, default ∅ out !! out_path i = None) ->
   r_written r = length cards /\ r_skipped r = 0%nat).
Proof.
  intros (st & Hst & _ & _ & ->)%main_Finished. simpl.
  pose proof (sync_writer_written _ _ _ _ (default ∅ out) Hst (fun _ _ => eq_refl)) as Hw.
  pose proof (sync_writer_counters _ _ _ _ _ Hst) as [Hsum _].
  pose proof (changed_from_length (default ∅ out) cards 0) as Hle.
  simpl in Hw, Hsum. split; [done |]. split; [lia |].
  intros Habs. rewrite changed_from_absent in Hw by (intros; apply Habs). lia.
Qed.

Lemma incremental_writes_changed_witness :
  main false (Some sample_cards) (Some (delete "1.json" sample_dir))
    = Finished sample_dir (final_index (main false (Some sample_cards) None))
        {| r_total := 3; r_written := 1; r_skipped := 2; r_stale := 0 |} /\
  r_written {| r_total := 3; r_written := 1; r_skipped := 2; r_stale := 0 |}
    = length (changed_from (default ∅ (Some (delete "1.json" sample_dir))) sample_cards 0).
Proof.
  assert (main false (Some sample_cards) (Some (delete "1.json" sample_dir))
    = Finished sample_dir (final_index (main false (Some sample_cards) None))
        {| r_total := 3; r_written := 1; r_skipped := 2; r_stale := 0 |}) as H
    by (vm_compute; reflexivity).
  split; [exact H | exact (proj1 (incremental_writes_changed _ _ _ _ _ H))].
Defined.

Lemma stale_filter_frame (total : nat) (d0 d1 : gmap string string) :
  (forall f, is_stale total f = true -> d1 !! f = d0 !! f) ->
  length (filter (fun f => is_stale total f = true) (listdir d1))
  = length (filter (fun f => is_stale total f = true) (listdir d0)).
Proof.
  intros Hframe. apply Permutation_length, NoDup_Permutation.
  - apply NoDup_filter, NoDup_fst_map_to_list.
  - apply NoDup_filter, NoDup_fst_map_to_list.
  - intros f. rewrite !list_elem_of_filter, !elem_of_listdir.
    split; intros [Hs Hf]; (split; [done |]).
    + by rewrite <- Hframe.
    + by rewrite Hframe.
Qed.

(** X5: the report of a finished run adds up: the total is the number of
    cards, every card is counted once, as written or as skipped, and the
    stale count is the number of entries of the directory as it was before
    the run that the reconciler's test selects. *)
Theorem report_accounting (force : bool) (cards : list json)
        (out : option (gmap string string))
        (d : gmap string string) (ix : dict) (r : report) :
  main force (Some cards) out = Finished d ix r ->
  r_total r = length cards /\
  (r_written r + r_skipped r)%nat = length cards /\
  r_stale r = length (filter (fun f => is_stale (length cards) f = true)
                             (listdir (default ∅ out))).
Proof.
  intros (st & Hst & _ & _ & ->)%main_Finished. simpl.
  pose proof (sync_writer_counters _ _ _ _ _ Hst) as [Hsum _]. simpl in Hsum.
  split; [done |]. split; [lia |].
  rewrite reconciler_count. apply stale_filter_frame.
  intros f Hstale.
  destruct (sync_writer_touched _ _ _ _ _ f Hst) as [Hsame | (j & Hj & ->)]; [done |].
  rewrite is_stale_out_path in Hstale. apply Nat.leb_le in Hstale. simpl in Hj. lia.
Qed.

Lemma report_accounting_witness :
  main false (Some [sample_card_0]) (Some sample_entries)
    = Finished (final_dir (main false (Some [sample_card_0]) (Some sample_entries)))
               (final_index (main false (Some [sample_card_0]) (Some sample_entries)))
               {| r_total := 1; r_written := 1; r_skipped := 0; r_stale := 1 |} /\
  r_stale {| r_total := 1; r_written := 1; r_skipped := 0; r_stale := 1 |}
    = length (filter (fun f => is_stale (length [sample_card_0]) f = true)
                     (listdir (default ∅ (Some sample_entries)))).
Proof.
  assert (main false (Some [sample_card_0]) (Some sample_entries)
    = Finished (final_dir (main false (Some [sample_card_0]) (Some sample_entries)))
               (final_index (main false (Some [sample_card_0]) (Some sample_entries)))
               {| r_total := 1; r_written := 1; r_skipped := 0; r_stale := 1 |}) as H
    by (vm_compute; reflexivity).
  pose proof (report_accounting _ _ _ _ _ _ H) as (_ & _ & Hs).
  split; [exact H | exact Hs].
Defined.

(** X6: no run, whether it finishes or aborts, creates, changes or removes
    an entry whose name does not end in [".json"]. *)
Theorem other_entries_untouched (force : bool) (input : option (list json))
        (out : option (gmap string string)) (f : string) :
  endswith ".json" f = false ->
  final_dir (main force input out) !! f = default ∅ out !! f.
Proof.
  intros Hf. destruct input as [cards|]; [| done].
  assert (forall i, f <> out_path i) as Hpath.
  { intros i ->. by rewrite endswith_out_path in Hf. }
  assert (out_dir (loop_state (sync_writer force cards 0 (initial out))) !! f
          = default ∅ out !! f) as Hloop.
  { destruct (sync_writer_state_touched force cards 0 (initial out) f)
      as [-> | (j & _ & ->)]; [done | by destruct (Hpath (0 + j)%nat)]. }
  unfold main. fold (initial out).
  destruct (sync_writer force cards 0 (initial out)) as [st|st]; simpl in Hloop |- *;
    [| done].
  destruct (reconciler (length cards) (out_dir st)) as [d' n] eqn:E.
  unfold final_dir. simpl.
  replace d' with (reconciler (length cards) (out_dir st)).1 by (by rewrite E).
  rewrite final_lookup, is_stale_no_suffix by done.
  destruct (String.eqb_spec f "index.json") as [-> | _]; done.
Qed.

Lemma other_entries_untouched_witness :
  endswith ".json" "7" = false /\
  final_dir (main false (Some sample_cards) (Some sample_entries)) !! "7"
    = default ∅ (Some sample_entries) !! "7".
Proof.
  assert (endswith ".json" "7" = false) as H by reflexivity.
  split; [exact H | exact (other_entries_untouched _ _ _ _ H)].
Defined.

(** ** The reconciler's accounts and the index map's names *)

Lemma filter_split_length (P : string -> Prop) `{!forall x, Decision (P x)}
      (l : list string) :
  (length (filter P l) + length (filter (fun x => ~ P x) l) = length l)%nat.
Proof.
  induction l as [|x l IH]; [done |].
  destruct (decide (P x)) as [Hx | Hx].
  - rewrite filter_cons_True, (filter_cons_False (fun x => ~ P x)) by tauto.
    simpl. lia.
  - rewrite filter_cons_False, (filter_cons_True (fun x => ~ P x)) by done.
    simpl. lia.
Qed.

Lemma reconcile_fold_none (total : nat) (names : list string)
      (acc : gmap string string * nat) :
  (forall f, f ∈ names -> is_stale total f = false) ->
  fold_left (reconcile_entry total) names acc = acc.
Proof.
  revert acc. induction names as [|g names IH]; intros acc Hnames; simpl; [done |].
  unfold reconcile_entry at 2. rewrite Hnames by apply list_elem_of_here.
  apply IH. intros f Hf. by apply Hnames, list_elem_of_further.
Qed.

(** X7: the reconciler only removes: what it leaves is part of the
    directory it was given, the entries it leaves and the number it counts
    as removed add up to the entries it was given, and a second pass over
    its result removes nothing. *)
Theorem reconciler_accounting (total : nat) (d : gmap string string) :
  (reconciler total d).1 ⊆ d /\
  (size (reconciler total d).1 + (reconciler total d).2 = size d)%nat /\
  reconciler total (reconciler total d).1 = ((reconciler total d).1, 0%nat).
Proof.
  split; [| split].
  - apply map_subseteq_spec. intros f v. rewrite reconciler_lookup.
    by destruct (is_stale total f).
  - rewrite reconciler_count, <- !length_map_to_list.
    rewrite <- (length_fmap fst (map_to_list d)),
            <- (length_fmap fst (map_to_list (reconciler total d).1)).
    fold (listdir d). fold (listdir (reconciler total d).1).
    rewrite <- (filter_split_length (fun f => is_stale total f = true) (listdir d)).
    rewrite Nat.add_comm. f_equal.
    apply Permutation_length, NoDup_Permutation.
    + apply NoDup_fst_map_to_list.
    + apply NoDup_filter, NoDup_fst_map_to_list.
    + intros f. rewrite list_elem_of_filter, !elem_of_listdir, reconciler_lookup.
      destruct (is_stale total f).
      * split; [by intros [? ?] | intros [Hn _]; by destruct Hn].
      * split; [intros ?; by split | by intros [_ ?]].
  - unfold reconciler at 1. apply reconcile_fold_none.
    intros f [v Hf]%elem_of_listdir. rewrite reconciler_lookup in Hf.
    by destruct (is_stale total f).
Qed.

Lemma last_named_None (cards : list json) (i : nat) (name : string) :
  cards_ok cards i = true ->
  last_named cards i name = None <-> name ∉ card_names cards i.
Proof.
  revert i. induction cards as [|card cards IH]; intros i; simpl.
  - intros _. split; [intros _; apply not_elem_of_nil | done].
  - destruct (card_name card i) as [n|]; [| done]. intros Hok.
    rewrite not_elem_of_cons, <- (IH (S i) Hok).
    destruct (last_named cards (S i) name); [split; [done | by intros [_ ?]] |].
    destruct (String.eqb_spec name n) as [-> | Hne]; split; try done.
    by intros [? _].
Qed.

Lemma card_names_length (cards : list json) (i : nat) :
  (length (card_names cards i) <= length cards)%nat.
Proof.
  revert i. induction cards as [|card cards IH]; intros i; simpl; [lia |].
  destruct (card_name card i); simpl; [specialize (IH (S i)) |]; lia.
Qed.

Lemma remove_dups_length (l : list string) :
  (length (remove_dups l) <= length l)%nat.
Proof.
  induction l as [|x l IH]; simpl; [lia |]. case_decide; simpl; lia.
Qed.

(** X8: after a finished run the index map has one entry for each distinct
    card name and no other: its keys are, up to order, the card names with
    the repetitions removed, so it has at most as many entries as there
    are cards. *)
Theorem index_map_names (force : bool) (cards : list json)
        (out : option (gmap string string))
        (d : gmap string string) (ix : dict) (r : report) :
  main force (Some cards) out = Finished d ix r ->
  ix.*1 ≡ₚ remove_dups (card_names cards 0) /\
  length ix = length (remove_dups (card_names cards 0)) /\
  (length ix <= length cards)%nat.
Proof.
  intros H. destruct (finished_cards_ok _ _ _ _ _ _ H) as [Hok ->].
  assert ((index_of cards 0 []).*1 ≡ₚ remove_dups (card_names cards 0)) as Hperm.
  { apply NoDup_Permutation.
    - apply index_of_NoDup. constructor.
    - apply NoDup_remove_dups.
    - intros name. rewrite elem_of_remove_dups.
      destruct (decide (name ∈ card_names cards 0)) as [Hin | Hout].
      + split; [done | intros _].
        destruct (decide (name ∈ (index_of cards 0 []).*1)) as [? | Hno]; [done |].
        apply dict_get_None in Hno. rewrite index_of_lookup in Hno by done.
        destruct (last_named cards 0 name) eqn:E; [done |].
        by apply last_named_None in E.
      + split; [| done]. intros Hkey. exfalso.
        apply (last_named_None cards 0 name Hok) in Hout.
        assert (dict_get name (index_of cards 0 []) = None) as Hget
          by (by rewrite index_of_lookup, Hout).
        by apply dict_get_None in Hget. }
  split; [done |].
  assert (length (index_of cards 0 []) = length (remove_dups (card_names cards 0))) as Hlen.
  { rewrite <- (length_fmap fst). by apply Permutation_length. }
  split; [done |]. rewrite Hlen.
  pose proof (remove_dups_length (card_names cards 0)).
  pose proof (card_names_length cards 0). lia.
Qed.

Lemma index_map_names_witness :
  main false (Some named_cards) None
    = Finished (final_dir (main false (Some named_cards) None))
               (final_index (main false (Some named_cards) None))
               {| r_total := 3; r_written := 3; r_skipped := 0; r_stale := 0 |} /\
  length (final_index (main false (Some named_cards) None))
    = length (remove_dups (card_names named_cards 0)).
Proof.
  assert (main false (Some named_cards) None
    = Finished (final_dir (main false (Some named_cards) None))
               (final_index (main false (Some named_cards) None))
               {| r_total := 3; r_written := 3; r_skipped := 0; r_stale := 0 |}) as H
    by (vm_compute; reflexivity).
  pose proof (index_map_names _ _ _ _ _ _ H) as (_ & Hlen & _).
  split; [exact H | exact Hlen].
Defined.

(** X9: the path of a document carries its position: the reconciler's
    reading of the path [i.json] (suffix removed, then [int]) is [i], so
    distinct positions have distinct paths, no path is the index file, and
    the reconciler's test selects the path exactly when the position is at
    least the card count. *)
Theorem out_path_round_trip (total i j : nat) :
  py_int (replace ".json" EmptyString (out_path i)) = Some (Z.of_nat i) /\
  endswith ".json" (out_path i) = true /\
  String.eqb (out_path i) "index.json" = false /\
  String.eqb (out_path i) (out_path j) = Nat.eqb i j /\
  is_stale total (out_path i) = (total <=? i)%nat.
Proof.
  split; [apply out_path_index |]. split; [apply endswith_out_path |].
  split; [apply String.eqb_neq, out_path_not_index |].
  split; [| apply is_stale_out_path].
  destruct (Nat.eqb_spec i j) as [-> | Hne]; [apply String.eqb_refl |].
  apply String.eqb_neq. intros Heq%out_path_inj. done.
Qed.

(** ** The attributes as a table *)

Lemma get_nil (k : string) : get [] k = JNull.
Proof. done. Qed.










Lemma trait_type_of_trait (t : string) (v : json) : trait_type_of (trait t v) = t.
Proof. reflexivity. Qed.








(** X12: a document has the fields name, description, image, external_url
    and attributes, in this order, followed by properties exactly for a
    theme that is a non-empty object; no field occurs twice; and the
    description is never falsy: a missing, null, empty or zero flavour
    text gives the fixed text. *)
Theorem document_schema (card : dict) (idx : nat) :
  (build_metadata card idx).*1
    = ["name"; "description"; "image"; "external_url"; "attributes"]
      ++ (if theme_ok card then ["properties"] else []) /\
  NoDup (build_metadata card idx).*1 /\
  truthy (get (build_metadata card idx) "description") = true /\
  (truthy (get card "flavorText") = false ->
   get (build_metadata card idx) "description" = JStr "A Whirlpool card").
Proof.
  rewrite build_metadata_fields. split; [by destruct (theme_ok card) |].
  split; [| split].
  - destruct (theme_ok card); apply (bool_decide_eq_true_1 _); vm_compute; reflexivity.
  - unfold get at 1. cbn [dict_get app String.eqb Ascii.eqb Bool.eqb default].
    by destruct (truthy (get card "flavorText")) eqn:E.
  - intros Hf. unfold get at 1. cbn [dict_get app String.eqb Ascii.eqb Bool.eqb default].
    by rewrite Hf.
Qed.

Lemma str_nat_inj (i j : nat) : str_nat i = str_nat j -> i = j.
Proof.
  intros H. pose proof (py_int_str_nat i) as Hi. rewrite H, py_int_str_nat in Hi.
  injection Hi. lia.
Qed.

(** X13: the document of a record that has a name does not depend on the
    record's position; the document of a record without a name does, by
    its placeholder name: at two different positions it differs. *)
Theorem document_position (card : dict) (i j : nat) :
  build_metadata card i = build_metadata card j <->
  is_Some (dict_get "name" card) \/ i = j.
Proof.
  rewrite !build_metadata_fields. unfold get_or at 1 3. split.
  - destruct (dict_get "name" card) as [v|]; [by left; eauto |].
    unfold placeholder. simpl. intros H. right. apply str_nat_inj. by simplify_eq.
  - intros [[v Hv] | ->]; [by rewrite Hv | done].
Qed.

Lemma get_ext (c1 c2 : dict) (k : string) :
  dict_get k c1 = dict_get k c2 -> get c1 k = get c2 k.
Proof. unfold get. by intros ->. Qed.

(** X14: the document depends on the twelve fields that the transformer reads
    and on nothing else: two records that agree on these fields, whatever
    their other fields and the order of their fields, get the same
    document. *)
Theorem unread_fields_ignored (c1 c2 : dict) (idx : nat) :
  (forall k, k ∈ used_keys -> dict_get k c1 = dict_get k c2) ->
  build_metadata c1 idx = build_metadata c2 idx.
Proof.
  intros H.
  assert (forall k, k ∈ used_keys -> get c1 k = get c2 k) as Hget
    by (intros k Hk; by apply get_ext, H).
  assert (forall k, bool_decide (k ∈ used_keys) = true -> get c1 k = get c2 k) as Hdec
    by (intros k Hk%bool_decide_eq_true_1; by apply Hget).
  rewrite !build_metadata_fields. unfold get_or, theme_ok.
  rewrite (H "name"), (H "image") by (apply (bool_decide_eq_true_1 _); reflexivity).
  rewrite !(Hdec "flavorText"), !(Hdec "theme") by reflexivity.
  do 5 f_equal. do 2 f_equal.
  unfold all_attrs, standard_attrs, theme_attrs, theme_block, stat_keys.
  cbn [flat_map]. unfold stat_step.
  rewrite !(Hdec "type"), !(Hdec "rarity"), !(Hdec "level"), !(Hdec "subtitle"),
    !(Hdec "artist"), !(Hdec "hp"), !(Hdec "manaCost"), !(Hdec "crit"),
    !(Hdec "theme") by reflexivity.
  reflexivity.
Qed.

Lemma unread_fields_ignored_witness :
  (forall k, k ∈ used_keys ->
     dict_get k shuffled_card_0
     = dict_get k [("name", JStr "Alpha Beta"); ("type", JStr "Fire"); ("level", JInt 3);
                   ("hp", JObj [("value", JInt 10)]);
                   ("crit", JObj [("value", JInt 2); ("color", JStr "red")]);
                   ("theme", JObj [("background", JStr "#fff");
                                   ("stat", JObj [("color", JStr "blue")])])]) /\
  build_metadata shuffled_card_0 0
  = build_metadata [("name", JStr "Alpha Beta"); ("type", JStr "Fire"); ("level", JInt 3);
                    ("hp", JObj [("value", JInt 10)]);
                    ("crit", JObj [("value", JInt 2); ("color", JStr "red")]);
                    ("theme", JObj [("background", JStr "#fff");
                                    ("stat", JObj [("color", JStr "blue")])])] 0.
Proof.
  assert (forall k, k ∈ used_keys ->
     dict_get k shuffled_card_0
     = dict_get k [("name", JStr "Alpha Beta"); ("type", JStr "Fire"); ("level", JInt 3);
                   ("hp", JObj [("value", JInt 10)]);
                   ("crit", JObj [("value", JInt 2); ("color", JStr "red")]);
                   ("theme", JObj [("background", JStr "#fff");
                                   ("stat", JObj [("color", JStr "blue")])])]) as H.
  { intros k Hk. unfold used_keys in Hk.
    repeat (apply elem_of_cons in Hk as [-> | Hk]); [reflexivity .. |].
    by apply elem_of_nil in Hk. }
  split; [exact H | exact (unread_fields_ignored _ _ 0 H)].
Defined.

(** ** The shape of a slug *)

Lemma is_slug_char_not_hyphen (c : ascii) : is_slug_char c = true -> Ascii.eqb c "-" = false.
Proof. intros H. destruct (Ascii.eqb_spec c "-") as [-> | _]; [discriminate H | done]. Qed.

Lemma starts_with_hyphen (c : ascii) (s : string) :
  starts_with "-" (String c s) = Ascii.eqb c "-".
Proof. cbn [starts_with]. rewrite andb_true_r. apply Ascii.eqb_sym. Qed.

Lemma re_sub_single_hyphens (b : bool) (s : string) :
  single_hyphens (re_sub_from b s) = true /\
  (b = true -> starts_with "-" (re_sub_from b s) = false).
Proof.
  revert b. induction s as [|c s IH]; intros b; [done |].
  cbn [re_sub_from]. destruct (is_slug_char c) eqn:Hc.
  - cbn [single_hyphens]. rewrite Hc, (proj1 (IH false)), starts_with_hyphen.
    split; [done | intros _; by apply is_slug_char_not_hyphen].
  - destruct b; [apply IH |]. split; [| done].
    cbn [single_hyphens]. rewrite (proj1 (IH true)), (proj2 (IH true) eq_refl).
    reflexivity.
Qed.

Lemma rstrip_starts_with (s : string) :
  starts_with "-" (rstrip "-" s) = true -> starts_with "-" s = true.
Proof.
  destruct s as [|c s]; [done |]. cbn [rstrip].
  destruct (rstrip "-" s); [| by rewrite !starts_with_hyphen].
  destruct (Ascii.eqb c "-") eqn:E; [done |]. by rewrite !starts_with_hyphen.
Qed.

Lemma rstrip_single_hyphens (s : string) :
  single_hyphens s = true -> single_hyphens (rstrip "-" s) = true.
Proof.
  induction s as [|c s IH]; [done |]. cbn [single_hyphens rstrip].
  intros [Hc Hs]%andb_true_iff. specialize (IH Hs).
  destruct (rstrip "-" s) as [|c' r] eqn:E.
  - destruct (Ascii.eqb c "-") eqn:Ec; [done |]. cbn [single_hyphens].
    apply orb_true_iff in Hc as [-> | [Hc _]%andb_true_iff]; [done | congruence].
  - cbn [single_hyphens] in IH |- *. rewrite IH, andb_true_r.
    apply orb_true_iff in Hc as [-> | [Hc Hn]%andb_true_iff]; [done |].
    rewrite Hc, andb_true_l. apply orb_true_iff. right.
    apply negb_true_iff in Hn. apply negb_true_iff.
    destruct (starts_with "-" (String c' r)) eqn:Hst; [| done].
    rewrite <- E in Hst. apply rstrip_starts_with in Hst. congruence.
Qed.

Lemma endswith_hyphen_cons (c c' : ascii) (s : string) :
  endswith "-" (String c (String c' s)) = endswith "-" (String c' s).
Proof.
  cbn [endswith].
  by rewrite (proj2 (String.eqb_neq "-" (String c (String c' s)))) by discriminate.
Qed.

Lemma endswith_hyphen_single (c : ascii) :
  endswith "-" (String c EmptyString) = Ascii.eqb c "-".
Proof.
  cbn [endswith]. destruct (Ascii.eqb_spec c "-") as [-> | Hne]; [reflexivity |].
  rewrite (proj2 (String.eqb_neq "-" (String c EmptyString))); [reflexivity |].
  intros [= <-]. done.
Qed.

Lemma rstrip_endswith (s : string) : endswith "-" (rstrip "-" s) = false.
Proof.
  induction s as [|c s IH]; [done |]. cbn [rstrip].
  destruct (rstrip "-" s) as [|c' r].
  - destruct (Ascii.eqb c "-") eqn:E; [done |]. by rewrite endswith_hyphen_single.
  - by rewrite endswith_hyphen_cons.
Qed.

Lemma single_hyphens_re_sub (s : string) :
  single_hyphens s = true -> re_sub_from false s = s.
Proof.
  induction s as [|c s IH]; [done |]. cbn [single_hyphens re_sub_from].
  intros [Hc Hs]%andb_true_iff.
  destruct (is_slug_char c) eqn:E; [by rewrite IH |].
  rewrite orb_false_l in Hc. apply andb_true_iff in Hc as [->%Ascii.eqb_eq Hn]. f_equal.
  destruct s as [|c' s']; [done |].
  rewrite starts_with_hyphen in Hn. apply negb_true_iff in Hn.
  pose proof (IH Hs) as Hrec.
  cbn [single_hyphens] in Hs. apply andb_true_iff in Hs as [Hc' Hs'].
  rewrite Hn, andb_false_l, orb_false_r in Hc'.
  cbn [re_sub_from]. rewrite Hc'.
  cbn [re_sub_from] in Hrec. by rewrite Hc' in Hrec.
Qed.

Lemma lstrip_id (s : string) : starts_with "-" s = false -> lstrip "-" s = s.
Proof.
  destruct s as [|c s]; [done |]. rewrite starts_with_hyphen. cbn [lstrip]. by intros ->.
Qed.

Lemma rstrip_id (s : string) : endswith "-" s = false -> rstrip "-" s = s.
Proof.
  induction s as [|c s IH]; [done |]. destruct s as [|c' s'].
  - rewrite endswith_hyphen_single. cbn [rstrip]. by intros ->.
  - rewrite endswith_hyphen_cons. intros H. specialize (IH H).
    change (rstrip "-" (String c (String c' s')))
      with (match rstrip "-" (String c' s') with
            | EmptyString => if Ascii.eqb c "-" then EmptyString else String c EmptyString
            | r => String c r
            end).
    by rewrite IH.
Qed.

Lemma lower_char_slug (c : ascii) :
  is_slug_char c || Ascii.eqb c "-" = true -> lower_char c = c.
Proof.
  destruct c as [[] [] [] [] [] [] [] []]; vm_compute; intros H;
    first [reflexivity | discriminate H].
Qed.

Lemma single_hyphens_lower (s : string) : single_hyphens s = true -> lower s = s.
Proof.
  induction s as [|c s IH]; [done |]. cbn [single_hyphens lower].
  intros [Hc Hs]%andb_true_iff. rewrite IH by done. f_equal.
  apply lower_char_slug. apply orb_true_iff in Hc as [-> | [-> _]%andb_true_iff]; [done |].
  apply orb_true_r.
Qed.

Lemma slug_is_url_safe_aux (name : string) : slug_shape (slugify name) = true.
Proof.
  unfold slugify, strip, re_sub, slug_shape. rewrite lstrip_re_sub.
  destruct (re_sub_single_hyphens true (lower name)) as [Hs Hst].
  rewrite rstrip_single_hyphens, rstrip_endswith by done.
  destruct (starts_with "-" (rstrip "-" (re_sub_from true (lower name)))) eqn:E; [| done].
  apply rstrip_starts_with in E. by rewrite Hst in E.
Qed.

(** X15: a slug consists of characters of [a-z0-9] and of single hyphens
    between them: it has no other character, no hyphen at either end and
    no two hyphens in a row; and it is empty exactly when the lowercased
    name has no character of [a-z0-9]. *)
Theorem slug_is_url_safe (name : string) :
  slug_shape (slugify name) = true /\
  (slugify name = EmptyString <-> alnum_runs (lower name) = []).
Proof.
  split; [apply slug_is_url_safe_aux |].
  rewrite slugify_runs. split.
  - intros Hj. destruct (alnum_runs (lower name)) eqn:E; [done |].
    exfalso. apply (alnum_runs_join_nonempty (lower name)); by rewrite E.
  - by intros ->.
Qed.

(** X16: the slugs are the fixed points of the slug derivation: a text is
    its own slug exactly when it has the shape of a slug, and so the slug
    of a slug is that slug. *)
Theorem slugify_fixed_points (s name : string) :
  (slugify s = s <-> slug_shape s = true) /\
  slugify (slugify name) = slugify name.
Proof.
  assert (forall t, slug_shape t = true -> slugify t = t) as Hfix.
  { intros t [[Hs Hst%negb_true_iff]%andb_true_iff Hend%negb_true_iff]%andb_true_iff.
    unfold slugify, strip, re_sub.
    by rewrite single_hyphens_lower, single_hyphens_re_sub, lstrip_id, rstrip_id. }
  split.
  - split; [| apply Hfix]. intros <-. apply (slug_is_url_safe_aux s).
  - apply Hfix, (slug_is_url_safe_aux name).
Qed.

(** ** The characters of the written texts *)

Lemma all_chars_app (p : ascii -> bool) (s t : string) :
  all_chars p (s +:+ t) = all_chars p s && all_chars p t.
Proof. induction s as [|c s IH]; [done |]. simpl. by rewrite IH, andb_assoc. Qed.

Lemma all_chars_join (p : ascii -> bool) (sep : string) (l : list string) :
  all_chars p sep = true -> Forall (fun s => all_chars p s = true) l ->
  all_chars p (join sep l) = true.
Proof.
  intros Hsep. induction 1 as [|s l Hs Hl IH]; [done |].
  destruct l as [|s' l]; [done |].
  change (join sep (s :: s' :: l)) with (s +:+ sep +:+ join sep (s' :: l)).
  by rewrite !all_chars_app, Hs, Hsep, IH.
Qed.

Lemma all_chars_impl (p q : ascii -> bool) (s : string) :
  (forall c, p c = true -> q c = true) -> all_chars p s = true -> all_chars q s = true.
Proof.
  intros Hpq. induction s as [|c s IH]; [done |]. simpl.
  intros [Hc Hs]%andb_true_iff. by rewrite (Hpq c Hc), IH.
Qed.

Lemma all_chars_spaces (p : ascii -> bool) (n : nat) :
  p " "%char = true -> all_chars p (spaces n) = true.
Proof. intros Hp. induction n as [|n IH]; [done |]. simpl. by rewrite Hp, IH. Qed.

Lemma digit_printable (c : ascii) : is_digit c = true -> in_range 32 126 c = true.
Proof.
  unfold is_digit, in_range. intros [H1%N.leb_le H2%N.leb_le]%andb_true_iff.
  apply andb_true_iff. split; apply N.leb_le; lia.
Qed.

Lemma float_char_printable (c : ascii) : float_char c = true -> in_range 32 126 c = true.
Proof.
  unfold float_char. intros [H | H]%orb_true_iff; [by apply digit_printable |].
  cbn [contains_char] in H.
  repeat (apply orb_true_iff in H as [->%Ascii.eqb_eq | H]; [reflexivity |]).
  done.
Qed.

Lemma string_of_uint_printable (d : Decimal.uint) :
  all_chars (in_range 32 126) (NilEmpty.string_of_uint d) = true.
Proof. induction d; simpl; auto. Qed.

Lemma str_int_printable (n : Z) : all_chars (in_range 32 126) (str_int n) = true.
Proof.
  unfold str_int, NilZero.string_of_int, NilZero.string_of_uint.
  destruct (Z.to_int n) as [d|d];
    pose proof (string_of_uint_printable d) as Hd; destruct d; try done;
    cbn [all_chars]; by rewrite Hd.
Qed.

Lemma encode_float_printable (r : string) :
  all_chars float_char r = true ->
  all_chars (in_range 32 126) (encode_float r) = true.
Proof.
  intros Hr. unfold encode_float.
  destruct (String.eqb r "nan"); [done |].
  destruct (String.eqb r "inf"); [done |].
  destruct (String.eqb r "-inf"); [done |].
  by apply (all_chars_impl float_char), Hr; apply float_char_printable.
Qed.


Lemma encode_char_printable (c : ascii) :
  all_chars (in_range 32 126) (encode_char true c) = true.
Proof. destruct c as [[] [] [] [] [] [] [] []]; reflexivity. Qed.

Lemma encode_chars_all (p : ascii -> bool) (b : bool) (s : string) :
  (forall c, all_chars p (encode_char b c) = true) ->
  all_chars p (encode_chars b s) = true.
Proof.
  intros Hc. induction s as [|c s IH]; [done |]. simpl.
  by rewrite all_chars_app, Hc, IH.
Qed.

(** The encoder's output has only characters of a class [p] when the
    printable ASCII characters, the escapes of the strings and the
    separators are of that class. *)
Lemma iterencode_all_chars (p : ascii -> bool) (e : encoder) :
  (forall c, in_range 32 126 c = true -> p c = true) ->
  (forall c, all_chars p (encode_char (ensure_ascii e) c) = true) ->
  all_chars p (item_separator e) = true ->
  all_chars p (key_separator e) = true ->
  (forall level, all_chars p (newline_indent e level) = true) ->
  forall v level, floats_ok v = true -> all_chars p (iterencode e level v) = true.
Proof.
  intros Hp Henc Hitem Hkey Hnl.
  assert (forall s, all_chars (in_range 32 126) s = true -> all_chars p s = true)
    as Hlit by (intros s; by apply all_chars_impl).
  assert (forall s, all_chars p (encode_str e s) = true) as Hstr.
  { intros s. unfold encode_str. rewrite all_chars_app. cbn [all_chars].
    rewrite encode_chars_all by done. by rewrite (Hp dquote). }
  induction v as [|b|n|r|s|l IH|d IH] using json_induction; intros level Hok.
  - by apply Hlit.
  - destruct b; by apply Hlit.
  - apply Hlit, str_int_printable.
  - by apply Hlit, encode_float_printable.
  - apply Hstr.
  - destruct l as [|x l]; [by apply Hlit |].
    cbn [iterencode]. rewrite !all_chars_app, !Hnl.
    rewrite (Hlit "["), (Hlit "]") by done. cbn [andb]. rewrite andb_true_r.
    apply all_chars_join; [by rewrite all_chars_app, Hitem, Hnl |].
    apply Forall_map. cbn [floats_ok] in Hok.
    rewrite forallb_forall in Hok. rewrite Forall_forall in IH |- *.
    intros y Hy. apply IH; [done |]. apply Hok. by apply list_elem_of_In.
  - destruct d as [|kv d]; [by apply Hlit |].
    cbn [iterencode]. rewrite !all_chars_app, !Hnl.
    rewrite (Hlit "{"), (Hlit "}") by done. cbn [andb]. rewrite andb_true_r.
    apply all_chars_join; [by rewrite all_chars_app, Hitem, Hnl |].
    apply Forall_map. cbn [floats_ok] in Hok.
    rewrite forallb_forall in Hok. rewrite Forall_forall in IH |- *.
    intros y Hy. rewrite !all_chars_app, Hstr, Hkey. cbn [andb].
    apply IH; [done |]. apply (Hok y). by apply list_elem_of_In.
Qed.












Lemma floats_ok_dict_set (k : string) (v : json) (d : dict) :
  floats_ok v = true -> floats_ok (JObj d) = true -> floats_ok (JObj (dict_set k v d)) = true.
Proof.
  cbn [floats_ok]. intros Hv. induction d as [|[k' v'] d IH]; cbn [dict_set forallb snd].
  - by rewrite Hv.
  - intros [Hv' Hd]%andb_true_iff. destruct (String.eqb k k'); cbn [forallb snd].
    + by rewrite Hv, Hd.
    + by rewrite Hv', IH.
Qed.

Lemma floats_ok_index_of (cards : list json) (i : nat) (ix : dict) :
  floats_ok (JObj ix) = true -> floats_ok (JObj (index_of cards i ix)) = true.
Proof.
  revert i ix. induction cards as [|card cards IH]; intros i ix Hix; simpl; [done |].
  destruct (card_name card i); [| done]. by apply IH, floats_ok_dict_set.
Qed.

(** X18: the index file is plain ASCII: the text written for it after a
    finished run has only printable ASCII characters and line feeds,
    whatever the card names are. *)
Theorem index_text_is_ascii (force : bool) (cards : list json)
        (out : option (gmap string string))
        (d : gmap string string) (ix : dict) (r : report) :
  main force (Some cards) out = Finished d ix r ->
  d !! "index.json" = Some (index_text ix) /\
  all_chars ascii_or_newline (index_text ix) = true.
Proof.
  intros H. destruct (finished_documents _ _ _ _ _ _ H) as (_ & _ & _ & Hix).
  split; [done |]. destruct (finished_cards_ok _ _ _ _ _ _ H) as [_ ->].
  unfold index_text. apply (iterencode_all_chars ascii_or_newline indented).
  - intros c Hc. unfold ascii_or_newline. by rewrite Hc.
  - intros c. apply (all_chars_impl (in_range 32 126)); [| apply encode_char_printable].
    intros c' Hc'. unfold ascii_or_newline. by rewrite Hc'.
  - done.
  - done.
  - intros level. unfold newline_indent. cbn [indent indented all_chars].
    by rewrite all_chars_spaces.
  - by apply floats_ok_index_of.
Qed.

Lemma index_text_is_ascii_witness :
  main false (Some sample_cards) None
    = Finished sample_dir (final_index (main false (Some sample_cards) None))
        {| r_total := 3; r_written := 3; r_skipped := 0; r_stale := 0 |} /\
  all_chars ascii_or_newline (index_text (final_index (main false (Some sample_cards) None)))
  = true.
Proof.
  assert (main false (Some sample_cards) None
    = Finished sample_dir (final_index (main false (Some sample_cards) None))
        {| r_total := 3; r_written := 3; r_skipped := 0; r_stale := 0 |}) as H
    by (vm_compute; reflexivity).
  split; [exact H | exact (proj2 (index_text_is_ascii _ _ _ _ _ _ H))].
Defined.

(** ** Names that [int] accepts, and successive runs *)

Lemma digit_char_facts (c : ascii) :
  is_digit c = true ->
  is_int_space c = false /\ Ascii.eqb c "+" = false /\ Ascii.eqb c "-" = false /\
  Ascii.eqb c "_" = false /\ 0 <= digit_val c.
Proof.
  destruct c as [[] [] [] [] [] [] [] []]; vm_compute; intros H;
    first [discriminate H | repeat split; congruence].
Qed.

Lemma int_digits_nonneg (s : string) (acc : Z) :
  all_digits s = true -> 0 <= acc ->
  exists n, int_digits acc s = Some n /\ 0 <= n.
Proof.
  revert acc. induction s as [|c s IH]; intros acc Hs Hacc; [by exists acc |].
  cbn [all_digits] in Hs. apply andb_true_iff in Hs as [Hc Hs].
  cbn [int_digits]. rewrite Hc. apply IH; [done |].
  destruct (digit_char_facts c Hc) as (_ & _ & _ & _ & Hd). lia.
Qed.

Lemma py_int_digits (s : string) :
  all_digits s = true -> s <> EmptyString ->
  exists n, 0 <= n /\ py_int s = Some n /\
            py_int (String "0" s) = Some n /\ py_int (String "+" s) = Some n /\
            py_int (String " " s) = Some n /\ py_int (String "-" s) = Some (- n).
Proof.
  destruct s as [|c s]; [done |]. intros Hs _.
  pose proof Hs as Hs'. cbn [all_digits] in Hs'. apply andb_true_iff in Hs' as [Hc Hs'].
  destruct (digit_char_facts c Hc) as (Hsp & Hplus & Hminus & _ & Hd).
  destruct (int_digits_nonneg s (digit_val c) Hs' Hd) as (n & Hn & Hpos).
  assert (int_unsigned (String c s) = Some n) as Hu
    by (unfold int_unsigned; by rewrite Hc).
  assert (py_int (String c s) = Some n) as Hp
    by (unfold py_int; cbn [skip_space]; by rewrite Hsp, Hplus, Hminus).
  exists n. split; [done |]. split; [done |]. split; [| split; [| split]].
  - unfold py_int. cbn [skip_space]. change (is_int_space "0") with false. cbv iota.
    change (Ascii.eqb "0" "+") with false. change (Ascii.eqb "0" "-") with false.
    cbv iota. unfold int_unsigned. change (is_digit "0") with true. cbv iota.
    cbn [int_digits]. rewrite Hc. change (10 * digit_val "0" + digit_val c) with (digit_val c).
    done.
  - unfold py_int. cbn [skip_space]. change (is_int_space "+") with false. cbv iota.
    change (Ascii.eqb "+" "+") with true. cbv iota. done.
  - unfold py_int. cbn [skip_space]. change (is_int_space " ") with true. cbv iota.
    cbn [skip_space]. by rewrite Hsp, Hplus, Hminus.
  - unfold py_int. cbn [skip_space]. change (is_int_space "-") with false. cbv iota.
    change (Ascii.eqb "-" "+") with false. change (Ascii.eqb "-" "-") with true.
    cbv iota. by rewrite Hu.
Qed.

Lemma occurs_json_prefixed (c : ascii) (s : string) :
  Ascii.eqb "." c = false -> all_digits s = true -> occurs ".json" (String c s) = false.
Proof.
  intros Hc Hs. cbn [occurs starts_with]. by rewrite Hc, digits_no_json.
Qed.

(** X19: the reconciler reads an entry's number the way [int] does: a name
    with a leading zero, plus sign or space before its digits is treated
    like the name without it, and a name with a minus sign is never
    removed when there is at least one card. *)
Theorem stale_name_variants (total : nat) (s : string) :
  all_digits s = true -> s <> EmptyString ->
  is_stale total (String "0" s +:+ ".json") = is_stale total (s +:+ ".json") /\
  is_stale total (String "+" s +:+ ".json") = is_stale total (s +:+ ".json") /\
  is_stale total (String " " s +:+ ".json") = is_stale total (s +:+ ".json") /\
  ((1 <= total)%nat -> is_stale total (String "-" s +:+ ".json") = false).
Proof.
  intros Hs Hne.
  destruct (py_int_digits s Hs Hne) as (n & Hn & Hp & H0 & Hplus & Hsp & Hminus).
  rewrite !is_stale_stem
    by first [by apply occurs_json_prefixed | by apply digits_no_json].
  rewrite Hp, H0, Hplus, Hsp, Hminus. repeat split.
  intros Ht. apply Z.leb_gt. lia.
Qed.

Lemma stale_name_variants_witness :
  all_digits "07" = true /\ "07" <> EmptyString /\
  is_stale 3 (String "0" "07" +:+ ".json") = is_stale 3 ("07" +:+ ".json") /\
  ((1 <= 3)%nat -> is_stale 3 (String "-" "07" +:+ ".json") = false).
Proof.
  assert (all_digits "07" = true) as H1 by reflexivity.
  assert ("07" <> EmptyString) as H2 by discriminate.
  pose proof (stale_name_variants 3 "07" H1 H2) as (H0 & _ & _ & Hm).
  split; [exact H1 |]. split; [exact H2 |]. split; [exact H0 | exact Hm].
Defined.

Lemma changed_from_cards (before cards : list json) (d : gmap string string) (i : nat) :
  (forall j, d !! out_path j = (fun c => document c j) <$> before !! j) ->
  changed_from d cards i = changed_cards before cards i.
Proof.
  intros Hd. revert i. induction cards as [|card cards IH]; intros i; simpl; [done |].
  by rewrite IH, Hd.
Qed.

(** X20: change detection is exact from one run to the next: after a
    finished run on some cards, a run without the force flag on other
    cards writes exactly the documents that differ from the document the
    previous cards had at the same position, and the new positions, and
    skips the rest. *)
Theorem rerun_writes_changed_documents (force : bool) (before cards : list json)
        (out : option (gmap string string))
        (d1 d2 : gmap string string) (ix1 ix2 : dict) (r1 r2 : report) :
  main force (Some before) out = Finished d1 ix1 r1 ->
  main false (Some cards) (Some d1) = Finished d2 ix2 r2 ->
  r_written r2 = length (changed_cards before cards 0) /\
  r_skipped r2 = (length cards - length (changed_cards before cards 0))%nat.
Proof.
  intros H1 (st & Hst & _ & _ & ->)%main_Finished. simpl.
  pose proof (sync_writer_written _ _ _ _ d1 Hst (fun _ _ => eq_refl)) as Hw.
  pose proof (sync_writer_counters _ _ _ _ _ Hst) as [Hsum _].
  pose proof (changed_from_length d1 cards 0) as Hle.
  rewrite (changed_from_cards before) in Hw, Hle
    by (intros j; apply (finished_document _ _ _ _ _ _ j H1)).
  simpl in Hw, Hsum. lia.
Qed.

Lemma rerun_writes_changed_documents_witness :
  main false (Some sample_cards) None
    = Finished sample_dir (final_index (main false (Some sample_cards) None))
        {| r_total := 3; r_written := 3; r_skipped := 0; r_stale := 0 |} /\
  main false (Some [sample_card_0; sample_card_2]) (Some sample_dir)
    = Finished (final_dir (main false (Some [sample_card_0; sample_card_2])
                                (Some sample_dir)))
               (final_index (main false (Some [sample_card_0; sample_card_2])
                                  (Some sample_dir)))
               {| r_total := 2; r_written := 1; r_skipped := 1; r_stale := 1 |} /\
  r_written {| r_total := 2; r_written := 1; r_skipped := 1; r_stale := 1 |}
    = length (changed_cards sample_cards [sample_card_0; sample_card_2] 0).
Proof.
  assert (main false (Some sample_cards) None
    = Finished sample_dir (final_index (main false (Some sample_cards) None))
        {| r_total := 3; r_written := 3; r_skipped := 0; r_stale := 0 |}) as H1
    by (vm_compute; reflexivity).
  assert (main false (Some [sample_card_0; sample_card_2]) (Some sample_dir)
    = Finished (final_dir (main false (Some [sample_card_0; sample_card_2])
                                (Some sample_dir)))
               (final_index (main false (Some [sample_card_0; sample_card_2])
                                  (Some sample_dir)))
               {| r_total := 2; r_written := 1; r_skipped := 1; r_stale := 1 |}) as H2
    by (vm_compute; reflexivity).
  split; [exact H1 |]. split; [exact H2 |].
  exact (proj1 (rerun_writes_changed_documents _ _ _ _ _ _ _ _ _ _ H1 H2)).
Defined.
